(** * SignAge-Web: the in-memory request cache

    A shallow embedding of the cache layer of the front end:

    - [services/cacheService.js]: [CacheEntry], [CacheManager];
    - [services/cachedAPIService.js]: [CachedAPIService];
    - [services/cacheWarmingService.js]: [CacheWarmer].

    Conventions of the embedding.

    - Time is an integer number of milliseconds. Every synchronous
      operation of the store takes the reading of [Date.now()] as an
      argument [now]; one operation sees one reading.
    - A JS [Map] and a plain object used as a table are finite maps
      ([gmap]); iteration order plays no role in what is proved.
    - Numbers are integers ([Z]), counters are [nat].
    - An [await] is a call of a world transformer: whatever happens
      while the caller is suspended (the fetch itself, other tasks
      touching the cache, the clock moving) is part of the world the
      transformer returns.
    - Invalidation listeners are caller-supplied callbacks whose
      exceptions are caught and logged; they are left out, so the model
      describes the store under listeners that do not re-enter it. *)

From Stdlib Require Import ZArith String Ascii DecimalString.
From stdpp Require Import gmap strings list fin_maps sorting.

Set Warnings "-register-all".
Local Open Scope Z_scope.

(** ** JavaScript values *)

Inductive value : Type :=
| VUndefined
| VNull
| VBool (b : bool)
| VNum (n : Z)
| VStr (s : string)
| VArr (xs : list value)
| VObj (props : list (string * value)).

(** The result of running a piece of code: a value or a thrown value. *)
Inductive completion (A : Type) : Type :=
| Return (a : A)
| Throw (e : value).
Arguments Return {A} a.
Arguments Throw {A} e.

Module JS.

(** [ToBoolean]. *)
Definition truthy (v : value) : bool :=
  match v with
  | VUndefined | VNull => false
  | VBool b => b
  | VNum n => negb (n =? 0)
  | VStr s => negb (String.eqb s "")
  | VArr _ | VObj _ => true
  end.

Fixpoint assoc (k : string) (props : list (string * value)) : option value :=
  match props with
  | [] => None
  | (k', v) :: rest => if String.eqb k k' then Some v else assoc k rest
  end.

(** [v?.k] for a property name [k] that is neither an index nor
    [length] (the wrapper reads [success], [error] and [data] only). *)
Definition optGet (v : value) (k : string) : value :=
  match v with
  | VObj props => default VUndefined (assoc k props)
  | _ => VUndefined
  end.

(** [v.k]: as [v?.k], but [null] and [undefined] raise a TypeError. *)
Definition TypeError : value :=
  VObj [("name", VStr "TypeError")].

Definition getProp (v : value) (k : string) : completion value :=
  match v with
  | VUndefined | VNull => Throw TypeError
  | _ => Return (optGet v k)
  end.

(** [String(n)] for an integer. *)
Definition string_of_Z (n : Z) : string :=
  NilZero.string_of_int (Z.to_int n).

Fixpoint indexed {A} (f : A -> value) (i : nat) (xs : list A)
  : list (string * value) :=
  match xs with
  | [] => []
  | x :: rest => (string_of_Z (Z.of_nat i), f x) :: indexed f (S i) rest
  end.

(** The own enumerable properties copied by [{ ...v }]. *)
Definition ownProps (v : value) : list (string * value) :=
  match v with
  | VObj props => props
  | VArr xs => indexed (fun x => x) 0 xs
  | VStr s => indexed (fun c => VStr (String c "")) 0 (list_ascii_of_string s)
  | _ => []
  end.

(** [o[k] = v] on a property list: an existing property keeps its
    place, a new one goes last. *)
Fixpoint setProp (k : string) (v : value) (props : list (string * value))
  : list (string * value) :=
  match props with
  | [] => [(k, v)]
  | (k', v') :: rest =>
      if String.eqb k k' then (k, v) :: rest else (k', v') :: setProp k v rest
  end.

(** [{ ...v, _source: tag }]. *)
Definition tagged (v : value) (tag : string) : value :=
  VObj (setProp "_source" (VStr tag) (ownProps v)).

(** [s.substring(n)] *)
Definition substringFrom (n : nat) (s : string) : string :=
  String.substring n (String.length s - n) s.

Definition hexDigit (n : N) : ascii :=
  nth (N.to_nat n)
    ["0"; "1"; "2"; "3"; "4"; "5"; "6"; "7"; "8"; "9";
     "a"; "b"; "c"; "d"; "e"; "f"]%char "0"%char.

(** One code unit of a string inside a JSON text. *)
Definition quoteChar (c : ascii) : string :=
  if Ascii.eqb c "008" then "\b"
  else if Ascii.eqb c "009" then "\t"
  else if Ascii.eqb c "010" then "\n"
  else if Ascii.eqb c "012" then "\f"
  else if Ascii.eqb c "013" then "\r"
  else if Ascii.eqb c "034" then String "\" (String "034" "")
  else if Ascii.eqb c "\" then "\\"
  else if (N_of_ascii c <? 32)%N then
    "\u00" +:+ String (hexDigit (N_of_ascii c / 16)) ""
           +:+ String (hexDigit (N_of_ascii c mod 16)) ""
  else String c "".

Fixpoint quoteChars (s : string) : string :=
  match s with
  | EmptyString => ""
  | String c rest => quoteChar c +:+ quoteChars rest
  end.

(** [QuoteJSONString] *)
Definition quote (s : string) : string :=
  String "034" (quoteChars s +:+ String "034" "").

(** [JSON.stringify(v)]; [None] is the [undefined] it returns for
    [undefined]. An [undefined] element of an array is written [null],
    a property whose value is [undefined] is left out. *)
Fixpoint stringify (v : value) : option string :=
  match v with
  | VUndefined => None
  | VNull => Some "null"
  | VBool b => Some (if b then "true" else "false")
  | VNum n => Some (string_of_Z n)
  | VStr s => Some (quote s)
  | VArr xs =>
      Some ("[" +:+
            String.concat ","
              ((fix elements (l : list value) : list string :=
                  match l with
                  | [] => []
                  | x :: rest => default "null" (stringify x) :: elements rest
                  end) xs)
            +:+ "]")
  | VObj props =>
      Some ("{" +:+
            String.concat ","
              ((fix members (l : list (string * value)) : list string :=
                  match l with
                  | [] => []
                  | (k, x) :: rest =>
                      match stringify x with
                      | Some text => (quote k +:+ ":" +:+ text) :: members rest
                      | None => members rest
                      end
                  end) props)
            +:+ "}")
  end.

End JS.

(** ** CacheEntry *)

Module CacheEntry.

Record t : Type := mk {
  data : value;
  ttl : Z;
  timestamp : Z;
  key : string;
  accessCount : nat;
  lastAccessTime : Z
}.

(** [new CacheEntry(data, ttl, key)] at time [now]. *)
Definition new (data : value) (ttl : Z) (key : string) (now : Z) : t :=
  {| data := data; ttl := ttl; timestamp := now; key := key;
     accessCount := 0; lastAccessTime := now |}.

Definition age (e : t) (now : Z) : Z := now - timestamp e.

Definition isValid (e : t) (now : Z) : bool := age e now <? ttl e.

Definition getTimeToLive (e : t) (now : Z) : Z :=
  Z.max 0 (ttl e - age e now).

Definition recordAccess (e : t) (now : Z) : t :=
  {| data := data e; ttl := ttl e; timestamp := timestamp e; key := key e;
     accessCount := S (accessCount e); lastAccessTime := now |}.

End CacheEntry.

(** ** CacheManager *)

Record Stats : Type := mkStats {
  hits : nat;
  misses : nat;
  invalidations : nat;
  writes : nat
}.

(** [defaultTTLs]: the [default] slot is set by the constructor and
    never removed, the other slots come and go by namespace name. The
    record holds the own slots of the object; [lookupTTL] reads them,
    and [readsOwnSlots] below says for which calls of [set] that is
    all that [defaultTTLs[namespace]] reads. *)
Record DefaultTTLs : Type := mkTTLs {
  namedTTL : gmap string Z;
  defaultTTL : Z
}.

Definition lookupTTL (d : DefaultTTLs) (namespace : string) : option Z :=
  if String.eqb namespace "default" then Some (defaultTTL d)
  else namedTTL d !! namespace.

(** [defaultTTLs] is an object literal, so [defaultTTLs[namespace]]
    also finds what the object inherits from [Object.prototype]: a
    function, or the prototype itself for [__proto__]. Each of these is
    truthy and not a number, so an entry written with it as TTL is
    never valid ([age < ttl] is false). These are the inherited names. *)
Definition inheritedNames : list string :=
  ["constructor"; "__defineGetter__"; "__defineSetter__"; "hasOwnProperty";
   "__lookupGetter__"; "__lookupSetter__"; "isPrototypeOf";
   "propertyIsEnumerable"; "toString"; "valueOf"; "__proto__";
   "toLocaleString"].

Definition isInherited (name : string) : bool :=
  existsb (String.eqb name) inheritedNames.

(** [ttl || this.defaultTTLs[namespace] || this.defaultTTLs.default]
    of [set] reads nothing inherited: [ttl] is given and truthy, so
    that the namespace is not looked up, or the namespace is not an
    inherited name. [lookupTTL] and [finalTTL] are the code's on these
    calls. *)
Definition readsOwnSlots (ttl : option Z) (namespace : string) : bool :=
  match ttl with
  | Some t => negb (t =? 0) || negb (isInherited namespace)
  | None => negb (isInherited namespace)
  end.

(** One entry of the object built by [export] and read by [import];
    a field that is [None] is a property the object does not have. *)
Record Snapshot : Type := mkSnapshot {
  snap_data : value;
  snap_ttl : option Z;
  snap_age : option Z;
  snap_isValid : option bool;
  snap_timeToLive : option Z;
  snap_accessCount : option nat
}.

(** [RegExp] is the host's: [regexp_new] is [new RegExp(pattern)]
    ([None] when it throws a SyntaxError) and [regexp_test] is
    [regex.test(s)] of a regex built without flags, which keeps no state
    between calls. *)
Class RegExpEngine : Type := {
  regexp : Type;
  regexp_new : string -> option regexp;
  regexp_test : regexp -> string -> bool
}.

Module CacheManager.

Record t : Type := mk {
  store : gmap string CacheEntry.t;
  stats : Stats;
  defaultTTLs : DefaultTTLs
}.

Definition new : t :=
  {| store := ∅;
     stats := mkStats 0 0 0 0;
     defaultTTLs :=
       {| namedTTL :=
            <["profile" := 5 * 60 * 1000]>
            (<["stats" := 3 * 60 * 1000]>
            (<["lessons" := 5 * 60 * 1000]>
            (<["streak" := 3 * 60 * 1000]>
            (<["progress" := 3 * 60 * 1000]> ∅))));
          defaultTTL := 10 * 60 * 1000 |} |}.

Definition withStore (cm : t) (s : gmap string CacheEntry.t) : t :=
  {| store := s; stats := stats cm; defaultTTLs := defaultTTLs cm |}.

Definition withStats (cm : t) (st : Stats) : t :=
  {| store := store cm; stats := st; defaultTTLs := defaultTTLs cm |}.

Definition hit (st : Stats) : Stats :=
  mkStats (S (hits st)) (misses st) (invalidations st) (writes st).
Definition miss (st : Stats) : Stats :=
  mkStats (hits st) (S (misses st)) (invalidations st) (writes st).
Definition invalidated (st : Stats) : Stats :=
  mkStats (hits st) (misses st) (S (invalidations st)) (writes st).
Definition written (st : Stats) : Stats :=
  mkStats (hits st) (misses st) (invalidations st) (S (writes st)).

(** [`${namespace}:${key}`] *)
Definition _buildKey (key namespace : string) : string :=
  namespace +:+ ":" +:+ key.

(** [key.startsWith(`${namespace}:`)] *)
Definition inNamespace (namespace cacheKey : string) : bool :=
  String.prefix (namespace +:+ ":") cacheKey.

Definition get (key namespace : string) (now : Z) (cm : t) : value * t :=
  let cacheKey := _buildKey key namespace in
  match store cm !! cacheKey with
  | None => (VNull, withStats cm (miss (stats cm)))
  | Some entry =>
      if negb (CacheEntry.isValid entry now) then
        (VNull,
         withStats (withStore cm (base.delete cacheKey (store cm)))
                   (invalidated (stats cm)))
      else
        (CacheEntry.data entry,
         withStats
           (withStore cm
              (<[cacheKey := CacheEntry.recordAccess entry now]> (store cm)))
           (hit (stats cm)))
  end.

(** [ttl || this.defaultTTLs[namespace] || this.defaultTTLs.default];
    [ttl = None] is an omitted or [null] argument. *)
Definition finalTTL (ttl : option Z) (namespace : string) (d : DefaultTTLs)
  : Z :=
  let byNamespace :=
    match lookupTTL d namespace with
    | Some t' => if negb (t' =? 0) then t' else defaultTTL d
    | None => defaultTTL d
    end in
  match ttl with
  | Some t => if negb (t =? 0) then t else byNamespace
  | None => byNamespace
  end.

Definition set (key : string) (v : value) (namespace : string)
    (ttl : option Z) (now : Z) (cm : t) : t :=
  let cacheKey := _buildKey key namespace in
  let entry :=
    CacheEntry.new v (finalTTL ttl namespace (defaultTTLs cm)) cacheKey now in
  withStats (withStore cm (<[cacheKey := entry]> (store cm)))
            (written (stats cm)).

Definition has (key namespace : string) (now : Z) (cm : t) : bool * t :=
  let cacheKey := _buildKey key namespace in
  match store cm !! cacheKey with
  | None => (false, cm)
  | Some entry =>
      if negb (CacheEntry.isValid entry now) then
        (false, withStore cm (base.delete cacheKey (store cm)))
      else (true, cm)
  end.

Definition delete (key namespace : string) (cm : t) : bool * t :=
  let cacheKey := _buildKey key namespace in
  match store cm !! cacheKey with
  | Some _ =>
      (true,
       withStats (withStore cm (base.delete cacheKey (store cm)))
                 (invalidated (stats cm)))
  | None => (false, cm)
  end.

(** [clear(namespace)]: [None] is [null]; the empty string is falsy
    as well and clears everything. *)
Definition clear (namespace : option string) (cm : t) : t :=
  match namespace with
  | Some ns =>
      if negb (String.eqb ns "") then
        withStore cm
          (filter (fun kv => inNamespace ns (fst kv) = false) (store cm))
      else withStore cm ∅
  | None => withStore cm ∅
  end.

Definition invalidate (key namespace : string) (cm : t) : t :=
  snd (delete key namespace cm).


Definition SyntaxError : value :=
  VObj [("name", VStr "SyntaxError")].

(** The keys [invalidatePattern] deletes: the test is on the key of
    the store, the one [_buildKey] made. *)
Definition patternHit `{RegExpEngine} (regex : regexp) (namespace : string)
    (cacheKey : string) : bool :=
  inNamespace namespace cacheKey && regexp_test regex cacheKey.

(** [invalidatePattern(pattern, namespace)]: the count of deleted
    entries and the new state, or the SyntaxError of [new RegExp]. *)
Definition invalidatePattern `{RegExpEngine} (pattern namespace : string)
    (cm : t) : completion (nat * t) :=
  match regexp_new pattern with
  | None => Throw SyntaxError
  | Some regex =>
      let count :=
        size (filter (fun kv => patternHit regex namespace (fst kv) = true)
                     (store cm)) in
      let kept :=
        filter (fun kv => patternHit regex namespace (fst kv) = false)
               (store cm) in
      Return (count, withStore cm kept)
  end.

(** [prune()]: the number of entries removed and the new state. *)
Definition prune (now : Z) (cm : t) : nat * t :=
  let pruned :=
    size (filter (fun kv => CacheEntry.isValid (snd kv) now = false)
                 (store cm)) in
  let kept :=
    filter (fun kv => CacheEntry.isValid (snd kv) now = true) (store cm) in
  (pruned, withStore cm kept).

(** [getSizeStats().entryCount] *)
Definition entryCount (cm : t) : nat := size (store cm).

Definition snapshot (now : Z) (e : CacheEntry.t) : Snapshot :=
  {| snap_data := CacheEntry.data e;
     snap_ttl := Some (CacheEntry.ttl e);
     snap_age := Some (CacheEntry.age e now);
     snap_isValid := Some (CacheEntry.isValid e now);
     snap_timeToLive := Some (CacheEntry.getTimeToLive e now);
     snap_accessCount := Some (CacheEntry.accessCount e) |}.

Definition export (now : Z) (cm : t) : gmap string Snapshot :=
  snapshot now <$> store cm.

(** The entry [import] builds from one exported property: the
    constructor default [ttl = 300000] applies to a missing [ttl],
    [value.age || 0] and [value.accessCount || 0] to the others. *)
Definition restore (now : Z) (key : string) (s : Snapshot) : CacheEntry.t :=
  let entry :=
    CacheEntry.new (snap_data s) (default 300000 (snap_ttl s)) key now in
  {| CacheEntry.data := CacheEntry.data entry;
     CacheEntry.ttl := CacheEntry.ttl entry;
     CacheEntry.timestamp := now - default 0 (snap_age s);
     CacheEntry.key := CacheEntry.key entry;
     CacheEntry.accessCount := default 0%nat (snap_accessCount s);
     CacheEntry.lastAccessTime := CacheEntry.lastAccessTime entry |}.

Definition import (data : gmap string Snapshot) (now : Z) (cm : t) : t :=
  withStore cm (map_imap (fun k s => Some (restore now k s)) data).

(** One item of the array [getNamespaceEntries] returns. *)
Record NamespaceEntry : Type := mkNamespaceEntry {
  ne_key : string;
  ne_isValid : bool;
  ne_ttl : Z;
  ne_timeToLive : Z;
  ne_accessCount : nat
}.

(** [getNamespaceEntries(namespace)]: the items come in the order the
    [Map] is iterated, here the order of [map_to_list]. *)
Definition getNamespaceEntries (namespace : string) (now : Z) (cm : t)
  : list NamespaceEntry :=
  map (fun kv =>
         {| ne_key := JS.substringFrom (String.length namespace + 1) (fst kv);
            ne_isValid := CacheEntry.isValid (snd kv) now;
            ne_ttl := CacheEntry.ttl (snd kv);
            ne_timeToLive := CacheEntry.getTimeToLive (snd kv) now;
            ne_accessCount := CacheEntry.accessCount (snd kv) |})
      (filter (fun kv => inNamespace namespace (fst kv) = true)
              (map_to_list (store cm))).



(** [_estimateCacheSize()]: [JSON.stringify(entry.data).length] is a
    TypeError when [stringify] returns [undefined]. *)
Definition _estimateCacheSize (cm : t) : completion nat :=
  foldl (fun totalSize kv =>
           match totalSize with
           | Throw error => Throw error
           | Return n =>
               match JS.stringify (CacheEntry.data (snd kv)) with
               | Some text => Return (n + String.length text)%nat
               | None => Throw JS.TypeError
               end
           end)
        (Return 0%nat) (map_to_list (store cm)).

End CacheManager.

(** ** A regular-expression engine for a fragment of the pattern syntax

    Patterns made of literal characters, [.], a postfix [*] on either,
    an optional leading [^] and an optional trailing [$]. Every pattern
    of the fragment is a valid pattern of the host, with the meaning
    given here; any other pattern is not taken ([None]). *)

Module Fragment.

Inductive atom : Type :=
| AnyChar
| Lit (c : ascii).

Record regex : Type := mkRegex {
  fromStart : bool;
  items : list (atom * bool);
  toEnd : bool
}.

Definition isMeta (c : ascii) : bool :=
  existsb (Ascii.eqb c)
    ["\"; "^"; "$"; "."; "*"; "+"; "?"; "("; ")"; "["; "]"; "{"; "}"; "|"]%char.

Definition atom_of (c : ascii) : option atom :=
  if Ascii.eqb c "." then Some AnyChar
  else if isMeta c then None
  else Some (Lit c).

Fixpoint parse_items (s : string) : option (list (atom * bool) * bool) :=
  match s with
  | EmptyString => Some ([], false)
  | String c rest =>
      if Ascii.eqb c "$" then
        match rest with
        | EmptyString => Some ([], true)
        | _ => None
        end
      else
        match atom_of c with
        | None => None
        | Some a =>
            match rest with
            | String "*" rest' =>
                match parse_items rest' with
                | Some (its, e) => Some ((a, true) :: its, e)
                | None => None
                end
            | _ =>
                match parse_items rest with
                | Some (its, e) => Some ((a, false) :: its, e)
                | None => None
                end
            end
        end
  end.

Definition parse (pattern : string) : option regex :=
  match pattern with
  | String "^" rest =>
      match parse_items rest with
      | Some (its, e) => Some (mkRegex true its e)
      | None => None
      end
  | _ =>
      match parse_items pattern with
      | Some (its, e) => Some (mkRegex false its e)
      | None => None
      end
  end.

(** [.] matches any character but a line terminator. *)
Definition atom_ok (a : atom) (c : ascii) : bool :=
  match a with
  | AnyChar => negb (Ascii.eqb c "010" || Ascii.eqb c "013")
  | Lit c' => Ascii.eqb c c'
  end.

(** Does a prefix of [s] match the items (the whole of [s] when the
    pattern ends in [$])? *)
Fixpoint match_here (its : list (atom * bool)) (e : bool) (s : string)
  : bool :=
  match its with
  | [] => if e then String.eqb s "" else true
  | (a, false) :: rest =>
      match s with
      | EmptyString => false
      | String c s' => atom_ok a c && match_here rest e s'
      end
  | (a, true) :: rest =>
      (fix star (s : string) : bool :=
         match_here rest e s ||
         match s with
         | EmptyString => false
         | String c s' => atom_ok a c && star s'
         end) s
  end.

Fixpoint search (its : list (atom * bool)) (e : bool) (s : string) : bool :=
  match_here its e s ||
  match s with
  | EmptyString => false
  | String _ s' => search its e s'
  end.

Definition test (r : regex) (s : string) : bool :=
  if fromStart r then match_here (items r) (toEnd r) s
  else search (items r) (toEnd r) s.

#[global] Instance engine : RegExpEngine :=
  {| regexp := regex; regexp_new := parse; regexp_test := test |}.

End Fragment.

(** ** The world around an asynchronous call *)

Record World : Type := mkWorld {
  cache : CacheManager.t;
  clock : Z
}.

Definition withCache (w : World) (cm : CacheManager.t) : World :=
  {| cache := cm; clock := clock w |}.

(** [await fetcher()]: the promise settles with a value or an error,
    in the world as it is by then. *)
Definition Fetcher : Type := World -> completion value * World.

(** ** The convenience functions of [cacheService] *)

Module CacheService.

(** What [getOrFetch] did: its completion, the world it left and how
    many times it invoked the fetcher. *)
Record Fetched : Type := mkFetched {
  result : completion value;
  world : World;
  fetcherCalls : nat
}.

(** [getOrFetch(key, fetcher, namespace, ttl)] *)
Definition getOrFetch (key : string) (fetcher : Fetcher) (namespace : string)
    (ttl : option Z) (w : World) : Fetched :=
  let '(cached, cm) := CacheManager.get key namespace (clock w) (cache w) in
  match cached with
  | VNull =>
      let '(r, w1) := fetcher (withCache w cm) in
      match r with
      | Return data =>
          mkFetched
            (Return (VObj [("data", data); ("source", VStr "api")]))
            (withCache w1
               (CacheManager.set key data namespace ttl (clock w1) (cache w1)))
            1
      | Throw error => mkFetched (Throw error) w1 1
      end
  | _ =>
      mkFetched (Return (VObj [("data", cached); ("source", VStr "cache")]))
                (withCache w cm) 0
  end.

End CacheService.

(** ** CachedAPIService *)

Module CachedAPIService.

Record CacheConfig : Type := mkConfig {
  ttl : Z;
  namespace : string
}.

Definition CACHE_CONFIG : gmap string CacheConfig :=
  <["/lessons" := mkConfig (5 * 60 * 1000) "lessons"]>
  (<["/progress" := mkConfig (3 * 60 * 1000) "progress"]>
  (<["/streak" := mkConfig (3 * 60 * 1000) "streak"]>
  (<["/health" := mkConfig (1 * 60 * 1000) "health"]> ∅))).

Record t : Type := mk {
  cacheConfig : gmap string CacheConfig
}.

Definition new : t := {| cacheConfig := CACHE_CONFIG |}.

Definition setCacheConfig (endpoint : string) (ttl : Z)
    (namespace : option string) (svc : t) : t :=
  {| cacheConfig :=
       <[endpoint := mkConfig ttl (default "default" namespace)]>
         (cacheConfig svc) |}.

Definition getCacheConfig (svc : t) (endpoint : string) : CacheConfig :=
  default (mkConfig (10 * 60 * 1000) "default") (cacheConfig svc !! endpoint).

(** The [options] argument; [None] is a property left out. *)
Record Options : Type := mkOptions {
  strategy : option string;
  cacheKey : option string;
  skipCache : bool
}.

Definition noOptions : Options := mkOptions None None false.

(** [{ cacheKey: k, ...options }] *)
Definition withDefaultKey (k : string) (options : Options) : Options :=
  {| strategy := strategy options;
     cacheKey := Some (default k (cacheKey options));
     skipCache := skipCache options |}.

(** What a call did: its completion, the world it left and how many
    times it invoked the fetcher. *)
Record Outcome : Type := mkOutcome {
  result : completion value;
  world : World;
  fetcherCalls : nat
}.

(** [result?.success || (!result?.error)] *)
Definition looksSuccessful (r : value) : bool :=
  JS.truthy (JS.optGet r "success") || negb (JS.truthy (JS.optGet r "error")).

(** [result?.data || result] *)
Definition dataToCache (r : value) : value :=
  if JS.truthy (JS.optGet r "data") then JS.optGet r "data" else r.

(** The [try] block of [cachedCall], entered in world [w]. *)
Definition fetchAndCache (strategy key : string) (config : CacheConfig)
    (fetcher : Fetcher) (w : World) : Outcome :=
  let '(r, w1) := fetcher w in
  match r with
  | Return res =>
      if looksSuccessful res then
        mkOutcome (Return res)
          (withCache w1
             (CacheManager.set key (dataToCache res) (namespace config)
                (Some (ttl config)) (clock w1) (cache w1)))
          1
      else mkOutcome (Return res) w1 1
  | Throw error =>
      if String.eqb strategy "network-first" then
        let '(cached, cm) :=
          CacheManager.get key (namespace config) (clock w1) (cache w1) in
        match cached with
        | VNull => mkOutcome (Throw error) (withCache w1 cm) 1
        | _ =>
            mkOutcome (Return (JS.tagged cached "cache-fallback"))
                      (withCache w1 cm) 1
        end
      else mkOutcome (Throw error) w1 1
  end.

Definition cachedCall (svc : t) (endpoint : string) (fetcher : Fetcher)
    (options : Options) (w : World) : Outcome :=
  let strategy := default "cache-first" (strategy options) in
  let key := default endpoint (cacheKey options) in
  if skipCache options then
    let '(r, w1) := fetcher w in mkOutcome r w1 1
  else
    let config := getCacheConfig svc endpoint in
    if String.eqb strategy "cache-first" then
      let '(cached, cm) :=
        CacheManager.get key (namespace config) (clock w) (cache w) in
      match cached with
      | VNull => fetchAndCache strategy key config fetcher (withCache w cm)
      | _ => mkOutcome (Return (JS.tagged cached "cache")) (withCache w cm) 0
      end
    else fetchAndCache strategy key config fetcher w.

Definition getAllLessons (svc : t) (api : Fetcher) (options : Options)
  : World -> Outcome :=
  cachedCall svc "/lessons" api (withDefaultKey "all_lessons" options).


Definition getStreak (svc : t) (api : Fetcher) (options : Options)
  : World -> Outcome :=
  cachedCall svc "/streak" api (withDefaultKey "streak" options).

Definition healthCheck (svc : t) (api : Fetcher) (options : Options)
  : World -> Outcome :=
  cachedCall svc "/health" api (withDefaultKey "health" options).

(** The shape of the three mutations: [api] is the call of
    [apiService]; [if (result.success)] runs the invalidations. *)
Definition afterMutation (invalidations : CacheManager.t -> CacheManager.t)
    (api : Fetcher) (w : World) : completion value * World :=
  let '(r, w1) := api w in
  match r with
  | Throw error => (Throw error, w1)
  | Return res =>
      match JS.getProp res "success" with
      | Throw error => (Throw error, w1)
      | Return ok =>
          if JS.truthy ok
          then (Return res, withCache w1 (invalidations (cache w1)))
          else (Return res, w1)
      end
  end.

Definition completeLesson : Fetcher -> World -> completion value * World :=
  afterMutation (fun cm =>
    CacheManager.invalidate "progress" "progress"
      (CacheManager.invalidate "all_lessons" "lessons" cm)).



Definition invalidateUserData (cm : CacheManager.t) : CacheManager.t :=
  CacheManager.invalidate "all_lessons" "lessons"
    (CacheManager.invalidate "streak" "streak"
       (CacheManager.invalidate "progress" "progress" cm)).

(** [getLessonById(lessonId, options)] *)
Definition getLessonById (svc : t) (lessonId : string) (api : Fetcher)
    (options : Options) : World -> Outcome :=
  cachedCall svc ("/lessons/" +:+ lessonId) api
    (withDefaultKey ("lesson_" +:+ lessonId) options).

Definition clearCache (namespace : option string) (cm : CacheManager.t)
  : CacheManager.t :=
  CacheManager.clear namespace cm.

End CachedAPIService.

(** ** CacheWarmer *)

(** [Array.prototype.sort] is stable; [precedes a b] says that [a] may
    stay before [b]. *)
Section Sort.
Context {A : Type} (precedes : A -> A -> bool).

Fixpoint sortInsert (x : A) (l : list A) : list A :=
  match l with
  | [] => [x]
  | y :: rest =>
      if precedes x y then x :: y :: rest else y :: sortInsert x rest
  end.

Definition sortBy (l : list A) : list A := foldr sortInsert [] l.
End Sort.

Module CacheWarmer.

Module WARMING_PRIORITY.
Definition CRITICAL : Z := 1.
Definition HIGH : Z := 2.
Definition MEDIUM : Z := 3.
Definition LOW : Z := 4.
End WARMING_PRIORITY.

(** A task without its fetcher: how a fetcher settles is a parameter
    of a run. *)
Record WarmingTask : Type := mkTask {
  priority : Z;
  timeout : Z
}.

(** [WARMING_TASKS], in the order of [Object.entries]. *)
Definition Registry : Type := list (string * WarmingTask).

Definition WARMING_TASKS : Registry :=
  [ ("getUserProgress", mkTask WARMING_PRIORITY.CRITICAL 5000);
    ("getLessons", mkTask WARMING_PRIORITY.HIGH 8000);
    ("getUserStreak", mkTask WARMING_PRIORITY.MEDIUM 5000) ].

(** [WARMING_TASKS[name] = { priority, fetcher, timeout }] *)
Fixpoint assign (name : string) (task : WarmingTask) (reg : Registry)
  : Registry :=
  match reg with
  | [] => [(name, task)]
  | (n, t') :: rest =>
      if String.eqb name n then (name, task) :: rest
      else (n, t') :: assign name task rest
  end.

Definition registerTask (name : string) (priority : option Z)
    (timeout : option Z) (reg : Registry) : Registry :=
  assign name
    (mkTask (default WARMING_PRIORITY.LOW priority) (default 10000 timeout))
    reg.

Record t : Type := mk {
  isWarming : bool;
  warmedTasks : list string;
  failedTasks : list string
}.

Definition new : t :=
  {| isWarming := false; warmedTasks := []; failedTasks := [] |}.

(** [Set.prototype.add] *)
Definition setAdd (name : string) (names : list string) : list string :=
  if existsb (String.eqb name) names then names else names ++ [name].

(** What an observer of a run sees, in order. *)
Inductive Event : Type :=
| Started (name : string) (priority : Z)
| AllSettled (priority : Z)
| Progress (completed failed total : nat) (currentPriority : Z).

Record WarmStats : Type := mkWarmStats {
  success : bool;
  warmed : nat;
  failed : nat;
  total : nat;
  failedNames : list string
}.

(** [.filter(task.priority <= priorityThreshold)
     .sort((a, b) => a[1].priority - b[1].priority)] *)
Definition tasksToRun (reg : Registry) (priorityThreshold : Z) : Registry :=
  sortBy (fun a b => priority (snd a) <=? priority (snd b))
    (List.filter (fun nt => priority (snd nt) <=? priorityThreshold) reg).

(** One step of the grouping loop on the [Map] [priorityGroups]. *)
Fixpoint groupPush (p : Z) (entry : string * WarmingTask)
    (groups : list (Z * Registry)) : list (Z * Registry) :=
  match groups with
  | [] => [(p, [entry])]
  | (q, entries) :: rest =>
      if p =? q then (q, entries ++ [entry]) :: rest
      else (q, entries) :: groupPush p entry rest
  end.

Definition priorityGroups (tasks : Registry) : list (Z * Registry) :=
  foldl (fun groups nt => groupPush (priority (snd nt)) nt groups) [] tasks.

(** [Array.from(priorityGroups.keys()).sort()]: without a compare
    function the keys are ordered by their string forms. *)
Definition sortedPriorities (groups : list (Z * Registry)) : list Z :=
  sortBy (fun a b => String.leb (JS.string_of_Z a) (JS.string_of_Z b))
    (map fst groups).

Fixpoint groupOf (p : Z) (groups : list (Z * Registry)) : Registry :=
  match groups with
  | [] => []
  | (q, entries) :: rest => if p =? q then entries else groupOf p rest
  end.

(** The tiers in the order the loop awaits them. *)
Definition tiers (reg : Registry) (priorityThreshold : Z)
  : list (Z * Registry) :=
  let groups := priorityGroups (tasksToRun reg priorityThreshold) in
  map (fun p => (p, groupOf p groups)) (sortedPriorities groups).

(** The body of the loop for one tier: every task of the tier is
    started, the loop waits for all of them to settle, the results are
    recorded and progress is notified. [fulfilled name] tells whether
    the race of the task against its timer is won by a result. *)
Definition runTier (fulfilled : string -> bool) (tier : Z * Registry)
    (acc : t * nat * list Event) : t * nat * list Event :=
  let '(st, totalTasks, trace) := acc in
  let names := map fst (snd tier) in
  let totalTasks' := (totalTasks + length names)%nat in
  let st' :=
    foldl (fun s name =>
             if fulfilled name
             then mk (isWarming s) (setAdd name (warmedTasks s)) (failedTasks s)
             else mk (isWarming s) (warmedTasks s) (setAdd name (failedTasks s)))
          st names in
  (st', totalTasks',
   trace ++ map (fun name => Started name (fst tier)) names
         ++ [AllSettled (fst tier);
             Progress (length (warmedTasks st')) (length (failedTasks st'))
                      totalTasks' (fst tier)]).

(** [warmCache(priorityThreshold)]: [None] is the [false] returned
    when a run is in progress or nobody is signed in. *)
Definition warmCache (authenticated : bool) (reg : Registry)
    (fulfilled : string -> bool) (priorityThreshold : option Z) (st : t)
  : option WarmStats * t * list Event :=
  if isWarming st then (None, st, [])
  else if negb authenticated then (None, st, [])
  else
    let threshold := default WARMING_PRIORITY.HIGH priorityThreshold in
    let '(st1, totalTasks, trace) :=
      foldl (fun acc tier => runTier fulfilled tier acc)
            (mk true [] [], 0%nat, [])
            (tiers reg threshold) in
    let st2 := mk false (warmedTasks st1) (failedTasks st1) in
    (Some {| success := (length (failedTasks st2) =? 0)%nat;
             warmed := length (warmedTasks st2);
             failed := length (failedTasks st2);
             total := totalTasks;
             failedNames := failedTasks st2 |},
     st2, trace).

(** The priorities of the tiers of a run, in the order they ran. *)
Definition tierOrder (trace : list Event) : list Z :=
  omap (fun ev => match ev with AllSettled p => Some p | _ => None end) trace.

(** [reset()] *)
Definition reset (st : t) : t :=
  {| isWarming := false; warmedTasks := []; failedTasks := [] |}.

(** The names of the tasks a run started, in the order they started. *)
Definition startedNames (trace : list Event) : list string :=
  omap (fun ev => match ev with Started name _ => Some name | _ => None end)
       trace.

End CacheWarmer.

(** * Properties *)

(** ** Keys of the store *)

Fixpoint colonFree (s : string) : bool :=
  match s with
  | EmptyString => true
  | String c rest => negb (Ascii.eqb c ":") && colonFree rest
  end.

Section Keys.
Import CacheManager.

Lemma colonFree_cons c s :
  colonFree (String c s) = true -> c <> ":"%char /\ colonFree s = true.
Proof.
  simpl. intros H. apply andb_true_iff in H as [Hc Hs]. split; [|exact Hs].
  intros ->. rewrite Ascii.eqb_refl in Hc. discriminate.
Qed.

Lemma buildKey_inv_key key1 key2 namespace :
  _buildKey key1 namespace = _buildKey key2 namespace -> key1 = key2.
Proof.
  unfold _buildKey. induction namespace as [|c ns IH]; simpl.
  - intros H. now inversion H.
  - intros H. inversion H. auto.
Qed.

Lemma buildKey_inj key1 ns1 key2 ns2 :
  colonFree ns1 = true -> colonFree ns2 = true ->
  _buildKey key1 ns1 = _buildKey key2 ns2 -> ns1 = ns2 /\ key1 = key2.
Proof.
  unfold _buildKey. revert ns2.
  induction ns1 as [|c ns1 IH]; intros [|d ns2] H1 H2; simpl; intros H.
  - inversion H. auto.
  - apply colonFree_cons in H2 as [Hd _]. inversion H. congruence.
  - apply colonFree_cons in H1 as [Hc _]. inversion H. congruence.
  - apply colonFree_cons in H1 as [_ H1]. apply colonFree_cons in H2 as [_ H2].
    inversion H; subst. destruct (IH ns2 H1 H2) as [-> ->]; auto.
Qed.

Lemma prefix_cons a s1 b s2 :
  String.prefix (String a s1) (String b s2)
  = if ascii_dec a b then String.prefix s1 s2 else false.
Proof. reflexivity. Qed.

Lemma prefix_empty s : String.prefix "" s = true.
Proof. now destruct s. Qed.

Lemma append_cons c s x : String c s +:+ x = String c (s +:+ x).
Proof. reflexivity. Qed.

Lemma append_empty x : "" +:+ x = x.
Proof. reflexivity. Qed.

Lemma inNamespace_buildKey key namespace :
  inNamespace namespace (_buildKey key namespace) = true.
Proof.
  unfold inNamespace, _buildKey.
  induction namespace as [|c ns IH];
    rewrite ?append_cons, ?append_empty, ?append_cons, ?append_empty,
      prefix_cons.
  - destruct (ascii_dec ":" ":"); [apply prefix_empty|congruence].
  - destruct (ascii_dec c c); [exact IH|congruence].
Qed.

Lemma inNamespace_other key ns1 ns2 :
  colonFree ns1 = true -> colonFree ns2 = true ->
  inNamespace ns1 (_buildKey key ns2) = true -> ns1 = ns2.
Proof.
  unfold inNamespace, _buildKey. revert ns2.
  induction ns1 as [|c ns1 IH]; intros [|d ns2] H1 H2;
    rewrite ?append_cons, ?append_empty, ?append_cons, ?append_empty,
      ?prefix_cons.
  - reflexivity.
  - apply colonFree_cons in H2 as [Hd _].
    destruct (ascii_dec ":" d); [congruence|discriminate].
  - apply colonFree_cons in H1 as [Hc _].
    destruct (ascii_dec c ":"); [congruence|discriminate].
  - apply colonFree_cons in H1 as [_ H1]. apply colonFree_cons in H2 as [_ H2].
    destruct (ascii_dec c d) as [->|]; [|discriminate].
    intros H. f_equal. now apply IH.
Qed.
End Keys.

(** ** Reading: [get] *)

Section Reading.
Import CacheManager.
Variables (key namespace : string) (now : Z) (cm : CacheManager.t).
Let cacheKey := _buildKey key namespace.
Let out := get key namespace now cm.

Lemma get_miss :
  store cm !! cacheKey = None ->
  out = (VNull, withStats cm (miss (stats cm))).
Proof. unfold out, get. fold cacheKey. now intros ->. Qed.

Lemma get_expired entry :
  store cm !! cacheKey = Some entry ->
  CacheEntry.ttl entry <= now - CacheEntry.timestamp entry ->
  out = (VNull,
         withStats (withStore cm (base.delete cacheKey (store cm)))
                   (invalidated (stats cm))).
Proof.
  unfold out, get. fold cacheKey. intros -> Hage.
  unfold CacheEntry.isValid, CacheEntry.age.
  now destruct (Z.ltb_spec (now - CacheEntry.timestamp entry)
                           (CacheEntry.ttl entry)); [lia|].
Qed.

Lemma get_valid entry :
  store cm !! cacheKey = Some entry ->
  now - CacheEntry.timestamp entry < CacheEntry.ttl entry ->
  out = (CacheEntry.data entry,
         withStats
           (withStore cm
              (<[cacheKey := CacheEntry.recordAccess entry now]> (store cm)))
           (hit (stats cm))).
Proof.
  unfold out, get. fold cacheKey. intros -> Hage.
  unfold CacheEntry.isValid, CacheEntry.age.
  now destruct (Z.ltb_spec (now - CacheEntry.timestamp entry)
                           (CacheEntry.ttl entry)); [|lia].
Qed.

(** Whatever [get] does, it leaves the other keys of the store alone. *)
Lemma get_other cacheKey' :
  cacheKey' <> cacheKey -> store (snd out) !! cacheKey' = store cm !! cacheKey'.
Proof.
  intros Hne. unfold out, get. fold cacheKey.
  destruct (store cm !! cacheKey) as [entry|] eqn:E; [|reflexivity].
  destruct (negb (CacheEntry.isValid entry now)); simpl.
  - now apply lookup_delete_ne.
  - now apply lookup_insert_ne.
Qed.
End Reading.

(** C5. [get] serves an entry exactly while [now - timestamp < ttl]:
    a valid entry is returned, counted as a hit and has its access
    count and last access time updated; an expired entry is removed
    (the entry count goes down by one), counted as an invalidation and
    answered with [null]; a key that is not stored is counted as a miss
    and answered with [null]. [get] is a total function: it returns in
    every case. *)
Theorem get_ttl_correct (key namespace : string) (now : Z)
    (cm : CacheManager.t) :
  let cacheKey := CacheManager._buildKey key namespace in
  let v := fst (CacheManager.get key namespace now cm) in
  let cm' := snd (CacheManager.get key namespace now cm) in
  (forall entry,
      CacheManager.store cm !! cacheKey = Some entry ->
      now - CacheEntry.timestamp entry < CacheEntry.ttl entry ->
      v = CacheEntry.data entry /\
      hits (CacheManager.stats cm') = S (hits (CacheManager.stats cm)) /\
      misses (CacheManager.stats cm') = misses (CacheManager.stats cm) /\
      invalidations (CacheManager.stats cm')
        = invalidations (CacheManager.stats cm) /\
      CacheManager.entryCount cm' = CacheManager.entryCount cm /\
      exists entry',
        CacheManager.store cm' !! cacheKey = Some entry' /\
        CacheEntry.accessCount entry' = S (CacheEntry.accessCount entry) /\
        CacheEntry.lastAccessTime entry' = now /\
        CacheEntry.data entry' = CacheEntry.data entry /\
        CacheEntry.ttl entry' = CacheEntry.ttl entry /\
        CacheEntry.timestamp entry' = CacheEntry.timestamp entry) /\
  (forall entry,
      CacheManager.store cm !! cacheKey = Some entry ->
      CacheEntry.ttl entry <= now - CacheEntry.timestamp entry ->
      v = VNull /\
      CacheManager.store cm' !! cacheKey = None /\
      S (CacheManager.entryCount cm') = CacheManager.entryCount cm /\
      invalidations (CacheManager.stats cm')
        = S (invalidations (CacheManager.stats cm)) /\
      hits (CacheManager.stats cm') = hits (CacheManager.stats cm) /\
      misses (CacheManager.stats cm') = misses (CacheManager.stats cm)) /\
  (CacheManager.store cm !! cacheKey = None ->
      v = VNull /\
      misses (CacheManager.stats cm') = S (misses (CacheManager.stats cm)) /\
      hits (CacheManager.stats cm') = hits (CacheManager.stats cm) /\
      invalidations (CacheManager.stats cm')
        = invalidations (CacheManager.stats cm) /\
      CacheManager.store cm' = CacheManager.store cm) /\
  (forall entry,
      CacheManager.store cm !! cacheKey = Some entry ->
      (hits (CacheManager.stats cm') = S (hits (CacheManager.stats cm))
       <-> now - CacheEntry.timestamp entry < CacheEntry.ttl entry)) /\
  (forall cacheKey',
      cacheKey' <> cacheKey ->
      CacheManager.store cm' !! cacheKey' = CacheManager.store cm !! cacheKey').
Proof.
  intros cacheKey v cm'. subst v cm'.
  split; [|split; [|split; [|split]]].
  - intros entry Hin Hage.
    rewrite (get_valid key namespace now cm entry Hin Hage). simpl.
    fold cacheKey. unfold CacheManager.entryCount. simpl.
    repeat split; try reflexivity.
    + apply map_size_insert_Some. rewrite Hin. eauto.
    + exists (CacheEntry.recordAccess entry now).
      rewrite lookup_insert_eq. repeat split; reflexivity.
  - intros entry Hin Hage.
    rewrite (get_expired key namespace now cm entry Hin Hage). simpl.
    fold cacheKey. unfold CacheManager.entryCount. simpl.
    repeat split; try reflexivity.
    + apply lookup_delete_eq.
    + rewrite map_size_delete_Some; [|rewrite Hin; eauto].
      assert (size (CacheManager.store cm) <> 0%nat); [|lia].
      intros Hz. apply map_size_empty_inv in Hz. rewrite Hz in Hin.
      now rewrite lookup_empty in Hin.
  - intros Hnone. rewrite (get_miss key namespace now cm Hnone). simpl.
    repeat split; reflexivity.
  - intros entry Hin. split.
    + intros Hhits.
      destruct (Z.lt_ge_cases (now - CacheEntry.timestamp entry)
                              (CacheEntry.ttl entry)) as [Hlt|Hge]; [exact Hlt|].
      rewrite (get_expired key namespace now cm entry Hin Hge) in Hhits.
      simpl in Hhits. lia.
    + intros Hage. now rewrite (get_valid key namespace now cm entry Hin Hage).
  - intros cacheKey' Hne. now apply get_other.
Qed.

(** ** Writing: [set] *)

Section Writing.
Import CacheManager.

Lemma set_lookup key v namespace ttl now cm :
  store (set key v namespace ttl now cm) !! _buildKey key namespace
  = Some (CacheEntry.new v (finalTTL ttl namespace (defaultTTLs cm))
            (_buildKey key namespace) now).
Proof. unfold set. simpl. apply lookup_insert_eq. Qed.

Lemma set_lookup_ne key v namespace ttl now cm cacheKey :
  cacheKey <> _buildKey key namespace ->
  store (set key v namespace ttl now cm) !! cacheKey = store cm !! cacheKey.
Proof. intros Hne. unfold set. simpl. now apply lookup_insert_ne. Qed.

(** What [get] and [has] answer depends on the entry under the key
    only. *)
Lemma get_result_lookup key namespace now cm1 cm2 :
  store cm1 !! _buildKey key namespace = store cm2 !! _buildKey key namespace ->
  fst (get key namespace now cm1) = fst (get key namespace now cm2).
Proof.
  intros Heq. unfold get. rewrite Heq.
  destruct (store cm2 !! _buildKey key namespace) as [entry|]; [|reflexivity].
  now destruct (negb (CacheEntry.isValid entry now)).
Qed.

Lemma has_result_lookup key namespace now cm1 cm2 :
  store cm1 !! _buildKey key namespace = store cm2 !! _buildKey key namespace ->
  fst (has key namespace now cm1) = fst (has key namespace now cm2).
Proof.
  intros Heq. unfold has. rewrite Heq.
  destruct (store cm2 !! _buildKey key namespace) as [entry|]; [|reflexivity].
  now destruct (negb (CacheEntry.isValid entry now)).
Qed.

Lemma set_entryCount_overwrite key v namespace ttl now cm :
  is_Some (store cm !! _buildKey key namespace) ->
  entryCount (set key v namespace ttl now cm) = entryCount cm.
Proof.
  intros Hin. unfold entryCount, set. simpl.
  now apply map_size_insert_Some.
Qed.

Lemma finalTTL_negative t namespace d :
  t < 0 -> finalTTL (Some t) namespace d = t.
Proof.
  intros Ht. unfold finalTTL.
  destruct (Z.eqb_spec t 0); [lia|reflexivity].
Qed.
End Writing.

(** C4, as the code has it. An explicit negative [ttl] gives an entry
    that is expired from the start, as long as the clock does not run
    backwards: [get] answers [null] and [has] answers [false] for it at
    any later time. An explicit [ttl] of zero is falsy in
    [ttl || ...] and is treated as if no [ttl] had been given. *)
Theorem set_nonpositive_ttl (key : string) (v : value) (namespace : string)
    (now : Z) (cm : CacheManager.t) :
  (forall ttl now',
      ttl < 0 -> now <= now' ->
      let cm1 := CacheManager.set key v namespace (Some ttl) now cm in
      fst (CacheManager.get key namespace now' cm1) = VNull /\
      fst (CacheManager.has key namespace now' cm1) = false) /\
  CacheManager.set key v namespace (Some 0) now cm
  = CacheManager.set key v namespace None now cm.
Proof.
  split; [|reflexivity].
  intros ttl now' Hneg Hclock cm1.
  pose proof (set_lookup key v namespace (Some ttl) now cm) as Hin.
  fold cm1 in Hin. rewrite finalTTL_negative in Hin by exact Hneg.
  unfold CacheManager.get, CacheManager.has. rewrite Hin.
  unfold CacheEntry.isValid, CacheEntry.age. simpl.
  destruct (Z.ltb_spec (now' - now) ttl); [lia|]. simpl. split; reflexivity.
Qed.

Lemma set_nonpositive_ttl_witness :
  fst (CacheManager.get "streak" "streak" 150
         (CacheManager.set "streak" (VNum 5) "streak" (Some (-100)) 0
            CacheManager.new)) = VNull.
Proof.
  apply (proj1 (set_nonpositive_ttl "streak" (VNum 5) "streak" 0
                  CacheManager.new) (-100) 150); lia.
Defined.

(** C4 fails for a [ttl] of zero: the entry gets the default TTL of its
    namespace and is served. *)
Lemma set_zero_ttl_is_served :
  let cm1 :=
    CacheManager.set "streak" (VNum 5) "streak" (Some 0) 0 CacheManager.new in
  fst (CacheManager.get "streak" "streak" 1 cm1) = VNum 5 /\
  fst (CacheManager.has "streak" "streak" 1 cm1) = true.
Proof. split; vm_compute; reflexivity. Qed.

(** ** One entry per namespace and key *)

Section Addressing.
Import CacheManager.

Lemma delete_lookup_ne key namespace cm cacheKey :
  cacheKey <> _buildKey key namespace ->
  store (snd (delete key namespace cm)) !! cacheKey = store cm !! cacheKey.
Proof.
  intros Hne. unfold delete.
  destruct (store cm !! _buildKey key namespace); [|reflexivity].
  simpl. now apply lookup_delete_ne.
Qed.

Lemma delete_lookup key namespace cm :
  store (snd (delete key namespace cm)) !! _buildKey key namespace = None.
Proof.
  unfold delete.
  destruct (store cm !! _buildKey key namespace) eqn:E; [|exact E].
  simpl. apply lookup_delete_eq.
Qed.

Lemma clear_lookup namespace cm cacheKey :
  namespace <> "" ->
  store (clear (Some namespace) cm) !! cacheKey
  = if inNamespace namespace cacheKey then None else store cm !! cacheKey.
Proof.
  intros Hne. unfold clear.
  destruct (String.eqb_spec namespace ""); [contradiction|]. simpl.
  destruct (inNamespace namespace cacheKey) eqn:E.
  - apply map_lookup_filter_None. right. intros x _. simpl. congruence.
  - destruct (store cm !! cacheKey) as [entry|] eqn:Hin.
    + apply map_lookup_filter_Some. split; [exact Hin|exact E].
    + apply map_lookup_filter_None. now left.
Qed.
End Addressing.

(** C3, as the code has it. The key of the store is the text
    [namespace:key], so two pairs are told apart when their namespaces
    contain no colon. For such namespaces and two distinct pairs, [set],
    [get] and [delete] on one pair leave the entry of the other as it
    was, what [get] answers for the other does not change, and clearing
    a non-empty namespace leaves the entries of another namespace in
    place. For all strings, a second [set] on a pair replaces the entry
    of the first: the stored entry is the new one and the number of
    entries stays the same. *)
Theorem namespace_key_addressing :
  (forall key1 ns1 key2 ns2,
      colonFree ns1 = true -> colonFree ns2 = true ->
      (ns1, key1) <> (ns2, key2) ->
      let cacheKey2 := CacheManager._buildKey key2 ns2 in
      CacheManager._buildKey key1 ns1 <> cacheKey2 /\
      (forall v ttl now cm,
          let cm' := CacheManager.set key1 v ns1 ttl now cm in
          CacheManager.store cm' !! cacheKey2
          = CacheManager.store cm !! cacheKey2 /\
          forall now',
            fst (CacheManager.get key2 ns2 now' cm')
            = fst (CacheManager.get key2 ns2 now' cm)) /\
      (forall now cm,
          CacheManager.store (snd (CacheManager.get key1 ns1 now cm))
            !! cacheKey2
          = CacheManager.store cm !! cacheKey2) /\
      (forall cm,
          CacheManager.store (snd (CacheManager.delete key1 ns1 cm))
            !! cacheKey2
          = CacheManager.store cm !! cacheKey2) /\
      (ns1 <> ns2 -> ns1 <> "" ->
       forall cm,
          CacheManager.store (CacheManager.clear (Some ns1) cm) !! cacheKey2
          = CacheManager.store cm !! cacheKey2)) /\
  (forall key namespace v1 ttl1 now1 v2 ttl2 now2 cm,
      let cm1 := CacheManager.set key v1 namespace ttl1 now1 cm in
      let cm2 := CacheManager.set key v2 namespace ttl2 now2 cm1 in
      (exists entry,
          CacheManager.store cm2 !! CacheManager._buildKey key namespace
          = Some entry /\
          CacheEntry.data entry = v2 /\
          CacheEntry.timestamp entry = now2 /\
          CacheEntry.accessCount entry = 0%nat) /\
      CacheManager.entryCount cm2 = CacheManager.entryCount cm1).
Proof.
  split.
  - intros key1 ns1 key2 ns2 H1 H2 Hne cacheKey2.
    assert (Hk : CacheManager._buildKey key1 ns1 <> cacheKey2).
    { intros Heq. apply buildKey_inj in Heq as [-> ->]; auto. }
    assert (Hk' : cacheKey2 <> CacheManager._buildKey key1 ns1) by congruence.
    split; [exact Hk|]. split; [|split; [|split]].
    + intros v ttl now cm cm'. split.
      * now apply set_lookup_ne.
      * intros now'. apply get_result_lookup. now apply set_lookup_ne.
    + intros now cm. now apply get_other.
    + intros cm. now apply delete_lookup_ne.
    + intros Hns Hnonempty cm. rewrite clear_lookup by exact Hnonempty.
      destruct (CacheManager.inNamespace ns1 cacheKey2) eqn:E; [|reflexivity].
      apply inNamespace_other in E; auto. contradiction.
  - intros key namespace v1 ttl1 now1 v2 ttl2 now2 cm cm1 cm2. split.
    + eexists. split; [apply set_lookup|]. repeat split; reflexivity.
    + apply set_entryCount_overwrite. subst cm1. rewrite set_lookup. eauto.
Qed.

Lemma namespace_key_addressing_witness :
  fst (CacheManager.get "x" "b" 0
         (CacheManager.set "x" (VNum 1) "a" None 0 CacheManager.new))
  = fst (CacheManager.get "x" "b" 0 CacheManager.new).
Proof.
  refine (proj2 (proj1 (proj2
    (proj1 namespace_key_addressing "x" "a" "x" "b" _ _ _))
    (VNum 1) None 0 CacheManager.new) 0).
  - reflexivity.
  - reflexivity.
  - discriminate.
Defined.

(** C3 fails when a namespace contains a colon: key ["b:c"] of
    namespace ["a"] and key ["c"] of namespace ["a:b"] share the entry
    stored under ["a:b:c"], and clearing namespace ["a"] removes an
    entry of namespace ["a:b"]. *)
Lemma namespace_with_colon_collides :
  ("a", "b:c") <> ("a:b", "c") /\
  fst (CacheManager.get "c" "a:b" 0 CacheManager.new) = VNull /\
  fst (CacheManager.get "c" "a:b" 0
         (CacheManager.set "b:c" (VNum 1) "a" (Some 1000) 0 CacheManager.new))
  = VNum 1 /\
  (let cm := CacheManager.set "c" (VNum 2) "a:b" (Some 1000) 0 CacheManager.new in
   fst (CacheManager.get "c" "a:b" 0 cm) = VNum 2 /\
   fst (CacheManager.get "c" "a:b" 0 (CacheManager.clear (Some "a") cm)) = VNull).
Proof. repeat split; try discriminate; vm_compute; reflexivity. Qed.

(** ** Export and import *)

Section Snapshots.
Import CacheManager.

Lemma import_export_lookup cm cm0 exportedAt importedAt cacheKey :
  store (import (export exportedAt cm) importedAt cm0) !! cacheKey
  = (fun e => restore importedAt cacheKey (snapshot exportedAt e))
      <$> store cm !! cacheKey.
Proof.
  unfold import, export. simpl.
  rewrite map_lookup_imap, lookup_fmap.
  now destruct (store cm !! cacheKey).
Qed.
End Snapshots.

(** C9. Importing what [export] produced rebuilds the store key by key:
    no key is added or lost; every entry keeps its value, its ttl and
    its access count; its write time is the import time minus the
    exported age, so its remaining time to live and its validity at the
    import are those it had at the export, and they stay in step at
    every later delay. *)
Theorem import_export_roundtrip (cm cm0 : CacheManager.t)
    (exportedAt importedAt : Z) (cacheKey : string) :
  let cm' :=
    CacheManager.import (CacheManager.export exportedAt cm) importedAt cm0 in
  match CacheManager.store cm !! cacheKey with
  | None => CacheManager.store cm' !! cacheKey = None
  | Some entry =>
      exists entry',
        CacheManager.store cm' !! cacheKey = Some entry' /\
        CacheEntry.data entry' = CacheEntry.data entry /\
        CacheEntry.ttl entry' = CacheEntry.ttl entry /\
        CacheEntry.accessCount entry' = CacheEntry.accessCount entry /\
        CacheEntry.timestamp entry'
        = importedAt - (exportedAt - CacheEntry.timestamp entry) /\
        forall delay,
          CacheEntry.getTimeToLive entry' (importedAt + delay)
          = CacheEntry.getTimeToLive entry (exportedAt + delay) /\
          CacheEntry.isValid entry' (importedAt + delay)
          = CacheEntry.isValid entry (exportedAt + delay)
  end.
Proof.
  intros cm'. unfold cm'. rewrite import_export_lookup.
  destruct (CacheManager.store cm !! cacheKey) as [entry|]; [|reflexivity].
  simpl. eexists. split; [reflexivity|].
  unfold CacheEntry.getTimeToLive, CacheEntry.isValid, CacheEntry.age. simpl.
  split; [reflexivity|]. split; [reflexivity|]. split; [reflexivity|].
  split; [unfold CacheEntry.age; reflexivity|]. intros delay.
  assert (E : importedAt + delay
              - (importedAt - (exportedAt - CacheEntry.timestamp entry))
              = exportedAt + delay - CacheEntry.timestamp entry) by lia.
  unfold CacheEntry.age. rewrite E. split; reflexivity.
Qed.

(** ** Pattern invalidation *)

Section Patterns.
Import CacheManager.
Context `{RegExpEngine}.

(** Splitting a store by a boolean test of its keys. *)
Lemma size_filter_split (hit : string -> bool)
    (m : gmap string CacheEntry.t) :
  (size (filter (fun kv => hit (fst kv) = true) m)
   + size (filter (fun kv => hit (fst kv) = false) m))%nat = size m.
Proof.
  rewrite <- (map_filter_union_complement
                (fun kv : string * CacheEntry.t => hit (fst kv) = true) m) at 3.
  rewrite map_size_disj_union by apply map_disjoint_filter_complement.
  f_equal. f_equal. apply map_filter_ext. intros i x _. simpl.
  now destruct (hit i).
Qed.

Lemma kept_lookup (hit : string -> bool) (m : gmap string CacheEntry.t)
    cacheKey :
  filter (fun kv => hit (fst kv) = false) m !! cacheKey
  = if hit cacheKey then None else m !! cacheKey.
Proof.
  destruct (hit cacheKey) eqn:E.
  - apply map_lookup_filter_None. right. intros x _. simpl. congruence.
  - destruct (m !! cacheKey) as [entry|] eqn:Hin.
    + apply map_lookup_filter_Some. split; [exact Hin|exact E].
    + apply map_lookup_filter_None. now left.
Qed.
End Patterns.

(** C2, as the code has it. For a pattern the engine compiles,
    [invalidatePattern] returns; it deletes exactly the entries whose
    key in the store, the text [namespace:key], begins with
    [namespace:] and matches the regular expression, the test being
    made on that whole text and not on the part after the prefix. Every
    other entry stays as it was, and the number returned is the number
    of entries removed. *)
Theorem invalidatePattern_on_store_keys {E : RegExpEngine}
    (pattern namespace : string) (regex : regexp) (cm : CacheManager.t) :
  regexp_new pattern = Some regex ->
  exists count cm',
    CacheManager.invalidatePattern pattern namespace cm = Return (count, cm') /\
    (forall cacheKey,
        CacheManager.store cm' !! cacheKey
        = if CacheManager.inNamespace namespace cacheKey
             && regexp_test regex cacheKey
          then None else CacheManager.store cm !! cacheKey) /\
    (forall key,
        CacheManager.store cm' !! CacheManager._buildKey key namespace
        = if regexp_test regex (CacheManager._buildKey key namespace)
          then None
          else CacheManager.store cm !! CacheManager._buildKey key namespace) /\
    (count + CacheManager.entryCount cm')%nat = CacheManager.entryCount cm /\
    CacheManager.stats cm' = CacheManager.stats cm.
Proof.
  intros Hcompiled. unfold CacheManager.invalidatePattern. rewrite Hcompiled.
  eexists _, _. split; [reflexivity|]. simpl.
  assert (Hlookup : forall cacheKey,
    filter (fun kv => CacheManager.patternHit regex namespace (fst kv) = false)
           (CacheManager.store cm) !! cacheKey
    = if CacheManager.inNamespace namespace cacheKey
         && regexp_test regex cacheKey
      then None else CacheManager.store cm !! cacheKey).
  { intros cacheKey.
    apply (kept_lookup (CacheManager.patternHit regex namespace)). }
  split; [exact Hlookup|]. split; [|split; [|reflexivity]].
  - intros key. rewrite Hlookup, inNamespace_buildKey. reflexivity.
  - unfold CacheManager.entryCount. simpl.
    apply (size_filter_split (CacheManager.patternHit regex namespace)).
Qed.

Lemma invalidatePattern_on_store_keys_witness :
  exists count cm',
    CacheManager.invalidatePattern "lesson_.*" "lessons"
      (CacheManager.set "lesson_1" (VNum 1) "lessons" None 0 CacheManager.new)
    = Return (count, cm').
Proof.
  destruct (invalidatePattern_on_store_keys (E := Fragment.engine)
              "lesson_.*" "lessons"
              (Fragment.mkRegex false
                 [(Fragment.Lit "l", false); (Fragment.Lit "e", false);
                  (Fragment.Lit "s", false); (Fragment.Lit "s", false);
                  (Fragment.Lit "o", false); (Fragment.Lit "n", false);
                  (Fragment.Lit "_", false); (Fragment.AnyChar, true)] false)
              (CacheManager.set "lesson_1" (VNum 1) "lessons" None 0
                 CacheManager.new) eq_refl)
    as (count & cm' & Hrun & _).
  exists count, cm'. exact Hrun.
Defined.

(** C2 fails where the key of the store and the bare key differ in what
    they match. The pattern [^lesson_] matches the bare key [lesson_1]
    but not [lessons:lesson_1]: nothing is removed. The pattern [s:p]
    does not match the bare key [progress] but matches
    [lessons:progress]: the entry is removed. *)
Lemma invalidatePattern_tests_namespaced_key :
  let cm :=
    CacheManager.set "progress" (VNum 2) "lessons" None 0
      (CacheManager.set "lesson_1" (VNum 1) "lessons" None 0 CacheManager.new) in
  (option_map (fun r => Fragment.test r "lesson_1") (Fragment.parse "^lesson_")
   = Some true /\
   exists cm',
     CacheManager.invalidatePattern "^lesson_" "lessons" cm = Return (0%nat, cm') /\
     fst (CacheManager.get "lesson_1" "lessons" 1 cm') = VNum 1) /\
  (option_map (fun r => Fragment.test r "progress") (Fragment.parse "s:p")
   = Some false /\
   exists cm',
     CacheManager.invalidatePattern "s:p" "lessons" cm = Return (1%nat, cm') /\
     fst (CacheManager.get "progress" "lessons" 1 cm') = VNull /\
     fst (CacheManager.get "progress" "lessons" 1 cm) = VNum 2).
Proof.
  split; (split; [vm_compute; reflexivity|]).
  - eexists. split; [vm_compute; reflexivity|]. vm_compute. reflexivity.
  - eexists. split; [vm_compute; reflexivity|]. split; vm_compute; reflexivity.
Qed.

(** ** The caching wrapper *)

Section Wrapper.
Import CachedAPIService.

Lemma fetchAndCache_calls strategy key config fetcher w :
  fetcherCalls (fetchAndCache strategy key config fetcher w) = 1%nat.
Proof.
  unfold fetchAndCache. destruct (fetcher w) as [[res|error] w1].
  - now destruct (looksSuccessful res).
  - destruct (String.eqb strategy "network-first"); [|reflexivity].
    destruct (CacheManager.get key (namespace config) (clock w1) (cache w1))
      as [cached cm].
    now destruct cached.
Qed.

Lemma fetchAndCache_returned strategy key config fetcher w res w1 :
  fetcher w = (Return res, w1) ->
  result (fetchAndCache strategy key config fetcher w) = Return res.
Proof.
  intros Hf. unfold fetchAndCache. rewrite Hf.
  now destruct (looksSuccessful res).
Qed.

Lemma fetchAndCache_thrown strategy key config fetcher w error w1 :
  strategy <> "network-first" ->
  fetcher w = (Throw error, w1) ->
  fetchAndCache strategy key config fetcher w = mkOutcome (Throw error) w1 1.
Proof.
  intros Hs Hf. unfold fetchAndCache. rewrite Hf.
  now destruct (String.eqb_spec strategy "network-first").
Qed.

(** Without [skipCache], any strategy but [cache-first] goes to the
    [try] block at once. *)
Lemma cachedCall_not_cache_first svc endpoint fetcher options w :
  skipCache options = false ->
  default "cache-first" (strategy options) <> "cache-first" ->
  cachedCall svc endpoint fetcher options w
  = fetchAndCache (default "cache-first" (strategy options))
      (default endpoint (cacheKey options)) (getCacheConfig svc endpoint)
      fetcher w.
Proof.
  intros Hskip Hs. unfold cachedCall. rewrite Hskip.
  now destruct (String.eqb_spec (default "cache-first" (strategy options))
                                "cache-first").
Qed.

(** Under [cache-first], whenever [get] answers [null] the fetcher is
    invoked. *)
Lemma cachedCall_cache_first_null svc endpoint fetcher options w :
  skipCache options = false ->
  default "cache-first" (strategy options) = "cache-first" ->
  fst (CacheManager.get (default endpoint (cacheKey options))
         (namespace (getCacheConfig svc endpoint)) (clock w) (cache w))
  = VNull ->
  fetcherCalls (cachedCall svc endpoint fetcher options w) = 1%nat.
Proof.
  intros Hskip Hs Hnull. unfold cachedCall. rewrite Hskip, Hs. simpl.
  destruct (CacheManager.get _ _ _ _) as [cached cm]. simpl in Hnull.
  subst cached. apply fetchAndCache_calls.
Qed.
End Wrapper.

(** C1. With [strategy: 'cache-only'] the wrapper does not look at the
    store before the call: it invokes the fetcher, once, whatever the
    store holds, hands back what the fetcher returned or threw, and
    raises no cache-miss error of its own. *)
Theorem cachedCall_cache_only_invokes_fetcher
    (svc : CachedAPIService.t) (endpoint : string) (fetcher : Fetcher)
    (cacheKey : option string) (w : World) :
  let options := CachedAPIService.mkOptions (Some "cache-only") cacheKey false in
  let out := CachedAPIService.cachedCall svc endpoint fetcher options w in
  CachedAPIService.fetcherCalls out = 1%nat /\
  (forall res w1,
      fetcher w = (Return res, w1) ->
      CachedAPIService.result out = Return res) /\
  (forall error w1,
      fetcher w = (Throw error, w1) ->
      CachedAPIService.result out = Throw error).
Proof.
  intros options out. subst out.
  rewrite cachedCall_not_cache_first by (reflexivity || discriminate).
  split; [apply fetchAndCache_calls|]. split.
  - intros res w1 Hf. now apply (fetchAndCache_returned _ _ _ _ _ _ w1).
  - intros error w1 Hf.
    rewrite (fetchAndCache_thrown _ _ _ _ _ error w1); [reflexivity| |exact Hf].
    discriminate.
Qed.

(** C1 at a warm and at a cold store: with a valid entry cached under
    [lessons:all_lessons] the fetcher is still invoked and its result,
    not the cached value, comes back; with nothing cached the call
    returns the fetcher's result instead of failing with a cache miss. *)
Example cache_only_on_warm_and_cold_store :
  let fetcher : Fetcher :=
    fun w => (Return (VObj [("success", VBool true); ("data", VNum 2)]), w) in
  let options :=
    CachedAPIService.mkOptions (Some "cache-only") (Some "all_lessons") false in
  let cold := mkWorld CacheManager.new 0 in
  let warm :=
    mkWorld (CacheManager.set "all_lessons" (VObj [("n", VNum 1)]) "lessons"
               None 0 CacheManager.new) 1 in
  let onWarm :=
    CachedAPIService.cachedCall CachedAPIService.new "/lessons" fetcher
      options warm in
  let onCold :=
    CachedAPIService.cachedCall CachedAPIService.new "/lessons" fetcher
      options cold in
  fst (CacheManager.get "all_lessons" "lessons" 1 (cache warm))
  = VObj [("n", VNum 1)] /\
  CachedAPIService.fetcherCalls onWarm = 1%nat /\
  CachedAPIService.result onWarm
  = Return (VObj [("success", VBool true); ("data", VNum 2)]) /\
  CachedAPIService.fetcherCalls onCold = 1%nat /\
  CachedAPIService.result onCold
  = Return (VObj [("success", VBool true); ("data", VNum 2)]).
Proof. repeat split; vm_compute; reflexivity. Qed.

(** C7, as the code has it. Under [network-first] the fetcher is
    invoked first, in the world of the call, and once. When it throws,
    the store is read in the world the fetcher left: the cached value,
    tagged [cache-fallback], is returned when the entry is present,
    valid and holds a value other than [null]; otherwise the error of
    the fetcher is thrown again. Under every other strategy, and with
    [skipCache], a call that reaches the fetcher invokes it once, in
    the world of the call (after the read of the store under
    [cache-first]); when the fetcher throws there, its error is the
    error of the call and the world is left as the fetcher left it. *)
Theorem network_first_fallback (svc : CachedAPIService.t) (endpoint : string)
    (fetcher : Fetcher) (options : CachedAPIService.Options) :
  let key := default endpoint (CachedAPIService.cacheKey options) in
  let ns := CachedAPIService.namespace
              (CachedAPIService.getCacheConfig svc endpoint) in
  (forall w error w1,
      CachedAPIService.skipCache options = false ->
      CachedAPIService.strategy options = Some "network-first" ->
      fetcher w = (Throw error, w1) ->
      let out := CachedAPIService.cachedCall svc endpoint fetcher options w in
      let servable entry :=
        CacheManager.store (cache w1) !! CacheManager._buildKey key ns
        = Some entry /\
        CacheEntry.isValid entry (clock w1) = true /\
        CacheEntry.data entry <> VNull in
      CachedAPIService.fetcherCalls out = 1%nat /\
      (forall entry,
          servable entry ->
          CachedAPIService.result out
          = Return (JS.tagged (CacheEntry.data entry) "cache-fallback")) /\
      ((forall entry, ~ servable entry) ->
       CachedAPIService.result out = Throw error)) /\
  (forall w error w1,
      let strategy :=
        default "cache-first" (CachedAPIService.strategy options) in
      let read := CacheManager.get key ns (clock w) (cache w) in
      let w0 :=
        if CachedAPIService.skipCache options then w
        else if String.eqb strategy "cache-first"
             then withCache w (snd read) else w in
      let out := CachedAPIService.cachedCall svc endpoint fetcher options w in
      (CachedAPIService.skipCache options = true \/
       CachedAPIService.strategy options <> Some "network-first") ->
      (CachedAPIService.skipCache options = false ->
       strategy = "cache-first" -> fst read = VNull) ->
      fetcher w0 = (Throw error, w1) ->
      CachedAPIService.fetcherCalls out = 1%nat /\
      CachedAPIService.result out = Throw error /\
      CachedAPIService.world out = w1).
Proof.
  intros key ns. split.
  - intros w error w1 Hskip Hstrategy Hf out servable. subst out.
    rewrite cachedCall_not_cache_first
      by (try exact Hskip; rewrite Hstrategy; discriminate).
    split; [apply fetchAndCache_calls|].
    rewrite Hstrategy. fold key. simpl.
    unfold CachedAPIService.fetchAndCache. rewrite Hf. simpl. fold ns.
    unfold CacheManager.get.
    destruct (CacheManager.store (cache w1) !! CacheManager._buildKey key ns)
      as [entry|] eqn:Hin.
    + destruct (CacheEntry.isValid entry (clock w1)) eqn:Hvalid; simpl.
      * split.
        -- intros entry' (Hin' & _ & Hdata).
           assert (entry' = entry) as -> by congruence.
           now destruct (CacheEntry.data entry).
        -- intros Hnone.
           destruct (CacheEntry.data entry) eqn:Hd; try reflexivity;
             exfalso; apply (Hnone entry); repeat split; auto;
             rewrite Hd; discriminate.
      * split; [|reflexivity].
        intros entry' (Hin' & Hvalid' & _). congruence.
    + split; [|reflexivity]. intros entry' (Hin' & _). congruence.
  - intros w error w1 strategy read w0 out Hcase Hreach Hf.
    subst out w0. revert Hf Hreach.
    unfold CachedAPIService.cachedCall. fold key ns strategy.
    destruct (CachedAPIService.skipCache options) eqn:Hskip.
    + intros Hf _. rewrite Hf. repeat split.
    + destruct Hcase as [Hcase|Hstrategy]; [discriminate|].
      assert (Hne : strategy <> "network-first").
      { unfold strategy.
        destruct (CachedAPIService.strategy options) as [s|]; simpl;
          [congruence|discriminate]. }
      destruct (String.eqb_spec strategy "cache-first") as [Hs|Hs].
      * intros Hf Hreach. specialize (Hreach eq_refl Hs).
        fold read. destruct read as [cached cm]. simpl in Hreach, Hf.
        subst cached.
        rewrite (fetchAndCache_thrown _ _ _ _ _ error w1 Hne Hf).
        repeat split.
      * intros Hf _.
        rewrite (fetchAndCache_thrown _ _ _ _ _ error w1 Hne Hf).
        repeat split.
Qed.

Lemma network_first_fallback_witness :
  let failing : Fetcher :=
    fun w => if clock w =? 1 then (Throw (VStr "offline"), w)
             else (Return (VObj [("success", VBool true)]), w) in
  CachedAPIService.result
    (CachedAPIService.cachedCall CachedAPIService.new "/progress"
       (fun w => (Throw (VStr "offline"), w))
       (CachedAPIService.mkOptions (Some "network-first") (Some "progress") false)
       (mkWorld (CacheManager.set "progress" (VObj [("done", VNum 3)])
                   "progress" None 0 CacheManager.new) 1))
  = Return
      (JS.tagged
         (CacheEntry.data
            (CacheEntry.new (VObj [("done", VNum 3)]) (3 * 60 * 1000)
               "progress:progress" 0))
         "cache-fallback") /\
  CachedAPIService.result
    (CachedAPIService.cachedCall CachedAPIService.new "/progress" failing
       (CachedAPIService.mkOptions (Some "cache-first") (Some "progress") false)
       (mkWorld CacheManager.new 1))
  = Throw (VStr "offline").
Proof.
  intros failing. split.
  - apply (proj1 (proj2
      (proj1 (network_first_fallback CachedAPIService.new "/progress"
                (fun w => (Throw (VStr "offline"), w))
                (CachedAPIService.mkOptions (Some "network-first")
                   (Some "progress") false))
         (mkWorld (CacheManager.set "progress" (VObj [("done", VNum 3)])
                     "progress" None 0 CacheManager.new) 1)
         (VStr "offline") _ eq_refl eq_refl eq_refl))).
    split; [|split];
      [vm_compute; reflexivity|vm_compute; reflexivity|discriminate].
  - refine (proj1 (proj2
      (proj2 (network_first_fallback CachedAPIService.new "/progress" failing
                (CachedAPIService.mkOptions (Some "cache-first")
                   (Some "progress") false))
         (mkWorld CacheManager.new 1) (VStr "offline") _ _ _ eq_refl))).
    + right. discriminate.
    + intros _ _. reflexivity.
Defined.

(** C7 fails for a cached [null]: the entry is present and valid, yet
    the [cached !== null] test takes it for a miss and the error of the
    fetcher is thrown again. *)
Lemma network_first_cached_null_rethrows :
  let w :=
    mkWorld (CacheManager.set "progress" VNull "progress" None 0
               CacheManager.new) 1 in
  (exists entry,
      CacheManager.store (cache w) !! CacheManager._buildKey "progress" "progress"
      = Some entry /\
      CacheEntry.isValid entry (clock w) = true) /\
  CachedAPIService.result
    (CachedAPIService.cachedCall CachedAPIService.new "/progress"
       (fun w0 => (Throw (VStr "offline"), w0))
       (CachedAPIService.mkOptions (Some "network-first") (Some "progress") false)
       w)
  = Throw (VStr "offline").
Proof.
  split.
  - eexists. split; vm_compute; reflexivity.
  - vm_compute. reflexivity.
Qed.

(** ** Mutations *)

Section Mutations.
Import CachedAPIService.

Lemma invalidate_lookup key namespace cm cacheKey :
  CacheManager.store (CacheManager.invalidate key namespace cm) !! cacheKey
  = if decide (cacheKey = CacheManager._buildKey key namespace)
    then None else CacheManager.store cm !! cacheKey.
Proof.
  unfold CacheManager.invalidate. case_decide as Hk.
  - subst cacheKey. apply delete_lookup.
  - now apply delete_lookup_ne.
Qed.




End Mutations.



(** A failed [completeLesson] at a warm store: the cached lessons are
    still served, without a call of the fetcher. *)
Example failed_mutation_keeps_cache :
  let api : Fetcher :=
    fun w => (Return (VObj [("success", VBool false); ("error", VStr "500")]), w) in
  let w :=
    mkWorld (CacheManager.set "all_lessons" (VObj [("n", VNum 1)]) "lessons"
               None 0 CacheManager.new) 1 in
  let out :=
    CachedAPIService.getAllLessons CachedAPIService.new
      (fun w0 => (Return (VObj [("success", VBool true)]), w0))
      CachedAPIService.noOptions
      (snd (CachedAPIService.completeLesson api w)) in
  CachedAPIService.fetcherCalls out = 0%nat /\
  CachedAPIService.result out
  = Return (VObj [("n", VNum 1); ("_source", VStr "cache")]).
Proof. split; vm_compute; reflexivity. Qed.

(** ** A cached [null] *)

(** C10. A [null] stored by [set] and read while valid is a hit for
    the statistics and the bookkeeping of the entry, and [null] for the
    caller: the answer of [get] on a key that is not stored. The TTL of
    the write is read from own slots ([readsOwnSlots]); a write whose
    TTL is an inherited member of [defaultTTLs] is never valid. In
    [cachedCall], a [cache-first] read of a valid entry holding [null]
    records the hit and fails the test [cached !== null]: the fetcher
    is invoked once, in the world in which the hit is recorded, and the
    call ends as a call at a cold store does: its result is the
    fetcher's, the world is the one the fetcher left when it throws or
    returns something that does not look successful, and a successful
    result is written through. This holds at every call made while the
    entry holds [null]. *)
Theorem cached_null_reads_as_miss :
  (forall key namespace ttl now now' cm,
      let cacheKey := CacheManager._buildKey key namespace in
      let cm1 := CacheManager.set key VNull namespace ttl now cm in
      let out := CacheManager.get key namespace now' cm1 in
      readsOwnSlots ttl namespace = true ->
      now' - now
      < CacheManager.finalTTL ttl namespace (CacheManager.defaultTTLs cm) ->
      fst out = VNull /\
      hits (CacheManager.stats (snd out)) = S (hits (CacheManager.stats cm1)) /\
      misses (CacheManager.stats (snd out)) = misses (CacheManager.stats cm1) /\
      (exists entry,
          CacheManager.store (snd out) !! cacheKey = Some entry /\
          CacheEntry.data entry = VNull /\
          CacheEntry.accessCount entry = 1%nat /\
          CacheEntry.lastAccessTime entry = now') /\
      (forall cm0,
          CacheManager.store cm0 !! cacheKey = None ->
          fst (CacheManager.get key namespace now' cm0) = fst out)) /\
  (forall svc endpoint fetcher options w entry,
      let key := default endpoint (CachedAPIService.cacheKey options) in
      let config := CachedAPIService.getCacheConfig svc endpoint in
      let ns := CachedAPIService.namespace config in
      let read := CacheManager.get key ns (clock w) (cache w) in
      let w0 := withCache w (snd read) in
      let out := CachedAPIService.cachedCall svc endpoint fetcher options w in
      CachedAPIService.skipCache options = false ->
      default "cache-first" (CachedAPIService.strategy options) = "cache-first" ->
      CacheManager.store (cache w) !! CacheManager._buildKey key ns = Some entry ->
      CacheEntry.isValid entry (clock w) = true ->
      CacheEntry.data entry = VNull ->
      fst read = VNull /\
      hits (CacheManager.stats (cache w0))
      = S (hits (CacheManager.stats (cache w))) /\
      misses (CacheManager.stats (cache w0))
      = misses (CacheManager.stats (cache w)) /\
      CacheManager.store (cache w0) !! CacheManager._buildKey key ns
      = Some (CacheEntry.recordAccess entry (clock w)) /\
      CachedAPIService.fetcherCalls out = 1%nat /\
      (forall r w1,
          fetcher w0 = (r, w1) ->
          CachedAPIService.result out = r /\
          (match r with
           | Return res => CachedAPIService.looksSuccessful res = false
           | Throw _ => True
           end ->
           CachedAPIService.world out = w1) /\
          (forall res,
              r = Return res ->
              CachedAPIService.looksSuccessful res = true ->
              readsOwnSlots (Some (CachedAPIService.ttl config)) ns = true ->
              CachedAPIService.world out
              = withCache w1
                  (CacheManager.set key (CachedAPIService.dataToCache res) ns
                     (Some (CachedAPIService.ttl config)) (clock w1)
                     (cache w1))))).
Proof.
  split.
  - intros key namespace ttl now now' cm cacheKey cm1 out _ Hvalid.
    pose proof (set_lookup key VNull namespace ttl now cm) as Hin.
    fold cm1 cacheKey in Hin.
    assert (Hout : out = _) by
      (apply (get_valid key namespace now' cm1 _ Hin); exact Hvalid).
    rewrite Hout. simpl. split; [reflexivity|]. split; [reflexivity|].
    split; [reflexivity|]. split.
    + eexists. fold cacheKey. rewrite lookup_insert_eq.
      split; [reflexivity|]. repeat split; reflexivity.
    + intros cm0 Hnone. now rewrite (get_miss key namespace now' cm0 Hnone).
  - intros svc endpoint fetcher options w entry key config ns read w0 out
      Hskip Hs Hin Hvalid Hnull.
    assert (Hage : clock w - CacheEntry.timestamp entry < CacheEntry.ttl entry).
    { unfold CacheEntry.isValid, CacheEntry.age in Hvalid.
      now apply Z.ltb_lt in Hvalid. }
    pose proof (get_valid key ns (clock w) (cache w) entry Hin Hage) as Hget.
    fold read in Hget.
    assert (Hread : fst read = VNull) by (rewrite Hget; exact Hnull).
    split; [exact Hread|].
    split; [subst w0; rewrite Hget; reflexivity|].
    split; [subst w0; rewrite Hget; reflexivity|].
    split; [subst w0; rewrite Hget; simpl; apply lookup_insert_eq|].
    split; [apply cachedCall_cache_first_null; auto|].
    intros r w1 Hf. subst out.
    unfold CachedAPIService.cachedCall. rewrite Hskip.
    fold key config ns. rewrite Hs. cbn [String.eqb Ascii.eqb Bool.eqb].
    fold read. rewrite (surjective_pairing read), Hread. fold w0.
    unfold CachedAPIService.fetchAndCache. rewrite Hf.
    destruct r as [res|error].
    + fold ns. destruct (CachedAPIService.looksSuccessful res) eqn:Hok.
      * split; [reflexivity|]. split; [discriminate|].
        intros res' Heq _ _. inversion Heq; subst res'. reflexivity.
      * split; [reflexivity|]. split; [reflexivity|].
        intros res' Heq Hok'. inversion Heq; subst res'. congruence.
    + cbn [String.eqb Ascii.eqb Bool.eqb]. split; [reflexivity|].
      split; [reflexivity|]. discriminate.
Qed.

Lemma cached_null_reads_as_miss_witness :
  let w :=
    mkWorld (CacheManager.set "/health" VNull "health" None 0
               CacheManager.new) 1 in
  let out :=
    CachedAPIService.cachedCall CachedAPIService.new "/health"
      (fun w0 => (Return (VObj [("success", VBool true)]), w0))
      CachedAPIService.noOptions w in
  (readsOwnSlots None "health" = true /\
   fst (CacheManager.get "/health" "health" 1 (cache w)) = VNull) /\
  CachedAPIService.fetcherCalls out = 1%nat /\
  CachedAPIService.result out = Return (VObj [("success", VBool true)]).
Proof.
  intros w out. split; [split; [reflexivity|]|].
  - refine (proj1 (proj1 cached_null_reads_as_miss "/health" "health" None
                     0 1 CacheManager.new eq_refl _)).
    vm_compute. reflexivity.
  - pose proof (proj2 cached_null_reads_as_miss CachedAPIService.new
      "/health" (fun w0 => (Return (VObj [("success", VBool true)]), w0))
      CachedAPIService.noOptions w
      (CacheEntry.new VNull (10 * 60 * 1000) "health:/health" 0)
      eq_refl eq_refl) as H.
    cbv zeta in H.
    destruct H as (_ & _ & _ & _ & Hcalls & Hout);
      [vm_compute; reflexivity|vm_compute; reflexivity|reflexivity|].
    split; [exact Hcalls|].
    exact (proj1 (Hout _ _ eq_refl)).
Defined.

(** ** The order of the warming tiers *)

Section Tiers.
Import CacheWarmer.
Variable fulfilled : string -> bool.

Lemma tierOrder_app (t1 t2 : list Event) :
  tierOrder (t1 ++ t2) = tierOrder t1 ++ tierOrder t2.
Proof. unfold tierOrder. apply omap_app. Qed.

Lemma tierOrder_started (p : Z) (names : list string) :
  tierOrder (map (fun name => Started name p) names) = [].
Proof. induction names as [|n names IH]; [reflexivity|exact IH]. Qed.

Lemma runTier_trace tier st totalTasks trace :
  tierOrder (snd (runTier fulfilled tier (st, totalTasks, trace)))
  = tierOrder trace ++ [fst tier].
Proof.
  unfold runTier. simpl.
  rewrite !tierOrder_app, tierOrder_started. reflexivity.
Qed.

Lemma runTiers_trace (ts : list (Z * Registry)) acc :
  tierOrder (snd (foldl (fun acc tier => runTier fulfilled tier acc) acc ts))
  = tierOrder (snd acc) ++ map fst ts.
Proof.
  revert acc. induction ts as [|tier ts IH]; intros acc; simpl.
  - now rewrite app_nil_r.
  - rewrite IH. destruct acc as [[st totalTasks] trace].
    rewrite runTier_trace. simpl. now rewrite <- app_assoc.
Qed.

(** The tiers of a run are awaited in the order of
    [sortedPriorities]. *)
Lemma warmCache_tierOrder reg priorityThreshold st :
  isWarming st = false ->
  tierOrder (snd (warmCache true reg fulfilled priorityThreshold st))
  = sortedPriorities
      (priorityGroups
         (tasksToRun reg (default WARMING_PRIORITY.HIGH priorityThreshold))).
Proof.
  intros Hidle. unfold warmCache. rewrite Hidle. simpl.
  pose proof (runTiers_trace
    (tiers reg (default WARMING_PRIORITY.HIGH priorityThreshold))
    (mk true [] [], 0%nat, [])) as Htrace.
  destruct (foldl _ _ _) as [[st1 totalTasks] trace]. simpl in *.
  rewrite Htrace. unfold tiers. rewrite map_map. simpl. apply map_id.
Qed.
End Tiers.

(** C8 at a registry with a task of priority 10 next to the tasks of
    priorities 1, 2 and 3: a run with threshold 10 awaits the tier of
    priority 10 before it starts the tiers of priorities 2 and 3,
    however the tasks settle. *)
Theorem warmCache_runs_tier_10_before_tier_2 (fulfilled : string -> bool) :
  let reg :=
    CacheWarmer.registerTask "extra" (Some 10) None CacheWarmer.WARMING_TASKS in
  let run :=
    CacheWarmer.warmCache true reg fulfilled (Some 10) CacheWarmer.new in
  CacheWarmer.tierOrder (snd run) = [1; 10; 2; 3] /\
  List.filter
    (fun ev => match ev with CacheWarmer.Progress _ _ _ _ => false | _ => true end)
    (snd run)
  = [ CacheWarmer.Started "getUserProgress" 1; CacheWarmer.AllSettled 1;
      CacheWarmer.Started "extra" 10; CacheWarmer.AllSettled 10;
      CacheWarmer.Started "getLessons" 2; CacheWarmer.AllSettled 2;
      CacheWarmer.Started "getUserStreak" 3; CacheWarmer.AllSettled 3 ].
Proof.
  intros reg run. split.
  - unfold run. rewrite warmCache_tierOrder by reflexivity.
    vm_compute. reflexivity.
  - unfold run, reg. vm_compute. reflexivity.
Qed.

(** *** When the order of the strings is the order of the numbers *)

Section SortPermutation.
Context {A : Type} (precedes : A -> A -> bool).

Lemma sortInsert_perm x l : sortInsert precedes x l ≡ₚ x :: l.
Proof.
  induction l as [|y l IH]; simpl; [reflexivity|].
  destruct (precedes x y); [reflexivity|].
  rewrite IH. apply Permutation_swap.
Qed.

Lemma sortBy_perm l : sortBy precedes l ≡ₚ l.
Proof.
  induction l as [|x l IH]; simpl; [reflexivity|].
  unfold sortBy in *. simpl. now rewrite sortInsert_perm, IH.
Qed.

Lemma sortBy_elem_of x l : x ∈ sortBy precedes l <-> x ∈ l.
Proof. now rewrite sortBy_perm. Qed.
End SortPermutation.

Section SortAgreement.
Context {A : Type} (precedes precedes' : A -> A -> bool).

Lemma sortInsert_agree x l :
  (forall y, y ∈ l -> precedes x y = precedes' x y) ->
  sortInsert precedes x l = sortInsert precedes' x l.
Proof.
  induction l as [|y l IH]; intros Hagree; simpl; [reflexivity|].
  rewrite <- (Hagree y) by apply list_elem_of_here.
  destruct (precedes x y); [reflexivity|].
  f_equal. apply IH. intros z Hz. apply Hagree. now apply list_elem_of_further.
Qed.

Lemma sortBy_agree l :
  (forall x y, x ∈ l -> y ∈ l -> precedes x y = precedes' x y) ->
  sortBy precedes l = sortBy precedes' l.
Proof.
  induction l as [|x l IH]; intros Hagree; [reflexivity|].
  change (sortInsert precedes x (sortBy precedes l)
          = sortInsert precedes' x (sortBy precedes' l)).
  rewrite IH.
  - apply sortInsert_agree. intros y Hy. apply sortBy_elem_of in Hy.
    apply Hagree; [apply list_elem_of_here|now apply list_elem_of_further].
  - intros y z Hy Hz. apply Hagree; now apply list_elem_of_further.
Qed.
End SortAgreement.

Section NumericSort.
Import CacheWarmer.

Lemma sortInsert_Zle_sorted x l :
  StronglySorted Z.le l -> StronglySorted Z.le (sortInsert Z.leb x l).
Proof.
  induction 1 as [|y l Hl IH Hy]; simpl.
  - repeat constructor.
  - destruct (Z.leb_spec x y) as [Hxy|Hxy].
    + constructor; [now constructor|].
      constructor; [exact Hxy|].
      eapply Forall_impl; [exact Hy|]. simpl. intros z Hz. lia.
    + constructor; [exact IH|].
      rewrite sortInsert_perm. constructor; [lia|exact Hy].
Qed.

Lemma sortBy_Zle_sorted l : StronglySorted Z.le (sortBy Z.leb l).
Proof.
  induction l as [|x l IH]; [constructor|].
  apply (sortInsert_Zle_sorted x _ IH).
Qed.

Lemma sorted_NoDup_strict l :
  StronglySorted Z.le l -> NoDup l -> StronglySorted Z.lt l.
Proof.
  induction 1 as [|x l Hl IH Hx]; intros Hnd; [constructor|].
  apply NoDup_cons in Hnd as [Hnotin Hnd].
  constructor; [now apply IH|].
  rewrite Forall_forall in *. intros y Hy.
  specialize (Hx y Hy). assert (x <> y) by (intros ->; contradiction). lia.
Qed.

(** On the digits [0] to [9] the order of the string forms is the
    order of the numbers. *)
Lemma digit_string_order a b :
  0 <= a <= 9 -> 0 <= b <= 9 ->
  String.leb (JS.string_of_Z a) (JS.string_of_Z b) = (a <=? b).
Proof.
  intros Ha Hb.
  assert (Ha' : a = 0 \/ a = 1 \/ a = 2 \/ a = 3 \/ a = 4 \/ a = 5 \/ a = 6 \/
                a = 7 \/ a = 8 \/ a = 9) by lia.
  assert (Hb' : b = 0 \/ b = 1 \/ b = 2 \/ b = 3 \/ b = 4 \/ b = 5 \/ b = 6 \/
                b = 7 \/ b = 8 \/ b = 9) by lia.
  repeat (destruct Ha' as [->|Ha']); try subst a;
    repeat (destruct Hb' as [->|Hb']); try subst b; reflexivity.
Qed.

Lemma groupPush_keys p entry groups :
  map fst (groupPush p entry groups)
  = if decide (p ∈ map fst groups) then map fst groups
    else map fst groups ++ [p].
Proof.
  induction groups as [|[q entries] groups IH]; [reflexivity|].
  cbn [groupPush map fst].
  destruct (Z.eqb_spec p q) as [->|Hne]; cbn [map fst].
  - destruct (decide (q ∈ q :: map fst groups)) as [|Hnotin]; [reflexivity|].
    exfalso. apply Hnotin. apply list_elem_of_here.
  - rewrite IH.
    destruct (decide (p ∈ map fst groups)) as [Hin|Hnotin];
      destruct (decide (p ∈ q :: map fst groups)) as [Hin'|Hnotin'];
      try reflexivity.
    + exfalso. apply Hnotin'. now apply list_elem_of_further.
    + apply elem_of_cons in Hin' as [?|?]; [congruence|contradiction].
Qed.

Lemma priorityGroups_keys (tasks : Registry) (groups : list (Z * Registry)) :
  NoDup (map fst groups) ->
  let groups' :=
    foldl (fun groups nt => groupPush (priority (snd nt)) nt groups)
          groups tasks in
  NoDup (map fst groups') /\
  forall p, p ∈ map fst groups' ->
            p ∈ map fst groups \/ exists nt, nt ∈ tasks /\ priority (snd nt) = p.
Proof.
  revert groups. induction tasks as [|nt tasks IH]; intros groups Hnd; simpl.
  - split; [exact Hnd|]. intros p Hp. now left.
  - specialize (IH (groupPush (priority (snd nt)) nt groups)).
    rewrite groupPush_keys in IH.
    destruct IH as [Hnd' Hfrom].
    + case_decide as Hin; [exact Hnd|].
      apply NoDup_app. split; [exact Hnd|]. split.
      * intros x Hx Hx'. apply list_elem_of_singleton in Hx'. congruence.
      * apply NoDup_singleton.
    + split; [exact Hnd'|]. intros p Hp.
      destruct (Hfrom p Hp) as [Hold|(nt' & Hin' & Hp')].
      * case_decide as Hin; [now left|].
        apply elem_of_app in Hold as [Hold|Hnew]; [now left|].
        apply list_elem_of_singleton in Hnew. right. exists nt.
        split; [apply list_elem_of_here|congruence].
      * right. exists nt'. split; [now apply list_elem_of_further|exact Hp'].
Qed.

(** X21. With every selected priority between 0 and 9, as the built-in
    priorities 1 to 4 are, the tiers of a run are awaited in strictly
    increasing order of priority. *)
Lemma warmCache_digit_priorities_ascending reg fulfilled priorityThreshold st :
  isWarming st = false ->
  (forall nt, nt ∈ reg ->
              priority (snd nt) <= default WARMING_PRIORITY.HIGH priorityThreshold ->
              0 <= priority (snd nt) <= 9) ->
  StronglySorted Z.lt
    (tierOrder (snd (warmCache true reg fulfilled priorityThreshold st))).
Proof.
  intros Hidle Hdigits. rewrite warmCache_tierOrder by exact Hidle.
  set (threshold := default WARMING_PRIORITY.HIGH priorityThreshold) in *.
  destruct (priorityGroups_keys (tasksToRun reg threshold) [])
    as [Hnd Hfrom]; [constructor|].
  fold (priorityGroups (tasksToRun reg threshold)) in Hnd, Hfrom.
  assert (Hkeys : forall p,
    p ∈ map fst (priorityGroups (tasksToRun reg threshold)) -> 0 <= p <= 9).
  { intros p Hp. destruct (Hfrom p Hp) as [Hnil|(nt & Hin & <-)].
    - now apply elem_of_nil in Hnil.
    - unfold tasksToRun in Hin. apply sortBy_elem_of in Hin.
      apply list_elem_of_In, filter_In in Hin as [Hin Hle].
      apply Hdigits; [now apply list_elem_of_In|now apply Z.leb_le]. }
  unfold sortedPriorities.
  rewrite (sortBy_agree _ Z.leb)
    by (intros x y Hx Hy; apply digit_string_order; auto).
  apply sorted_NoDup_strict; [apply sortBy_Zle_sorted|].
  now rewrite sortBy_perm.
Qed.
End NumericSort.

(** ** The documented scenarios, run on the model *)

Section Scenarios.
Import CacheManager.

(** [set("streak", 5, "streak", 100)], a read at once and a read
    150 ms later. *)
Example scenario_ttl :
  let cm1 := set "streak" (VNum 5) "streak" (Some 100) 0 new in
  let early := get "streak" "streak" 0 cm1 in
  let late := get "streak" "streak" 150 (snd early) in
  fst early = VNum 5 /\
  fst late = VNull /\
  invalidations (stats (snd late)) = S (invalidations (stats (snd early))) /\
  entryCount (snd early) = 1%nat /\
  entryCount (snd late) = 0%nat.
Proof. repeat split; vm_compute; reflexivity. Qed.

(** Keys [lesson_1], [lesson_2] and [progress] of one namespace and the
    pattern [lesson_.*]. *)
Example scenario_pattern :
  let cm :=
    set "progress" (VNum 3) "lessons" None 0
      (set "lesson_2" (VNum 2) "lessons" None 0
         (set "lesson_1" (VNum 1) "lessons" None 0 new)) in
  exists cm',
    invalidatePattern "lesson_.*" "lessons" cm = Return (2%nat, cm') /\
    fst (get "lesson_1" "lessons" 1 cm') = VNull /\
    fst (get "lesson_2" "lessons" 1 cm') = VNull /\
    fst (get "progress" "lessons" 1 cm') = VNum 3.
Proof.
  eexists. split; [vm_compute; reflexivity|].
  repeat split; vm_compute; reflexivity.
Qed.

(** Key [x] in the namespaces [a] and [b]. *)
Example scenario_namespaces :
  let cm := set "x" (VNum 2) "b" None 0 (set "x" (VNum 1) "a" None 0 new) in
  fst (get "x" "a" 1 cm) = VNum 1 /\
  fst (get "x" "b" 1 cm) = VNum 2 /\
  fst (get "x" "a" 1 (clear (Some "a") cm)) = VNull /\
  fst (get "x" "b" 1 (clear (Some "a") cm)) = VNum 2.
Proof. repeat split; vm_compute; reflexivity. Qed.

(** Two reads of the lessons in a row: [cache-first] calls the fetcher
    for the first only, [network-only] for both. *)
Example scenario_strategies :
  let fetcher : Fetcher :=
    fun w => (Return (VObj [("success", VBool true);
                            ("data", VObj [("n", VNum 7)])]), w) in
  let twice options :=
    let first :=
      CachedAPIService.getAllLessons CachedAPIService.new fetcher options
        (mkWorld new 0) in
    let second :=
      CachedAPIService.getAllLessons CachedAPIService.new fetcher options
        (CachedAPIService.world first) in
    (CachedAPIService.fetcherCalls first, CachedAPIService.fetcherCalls second,
     CachedAPIService.result second) in
  twice CachedAPIService.noOptions
  = (1%nat, 0%nat, Return (VObj [("n", VNum 7); ("_source", VStr "cache")])) /\
  twice (CachedAPIService.mkOptions (Some "network-only") None false)
  = (1%nat, 1%nat,
     Return (VObj [("success", VBool true); ("data", VObj [("n", VNum 7)])])).
Proof. split; vm_compute; reflexivity. Qed.

(** A fetcher that resolves to [null]: the [null] is cached, and the
    next [cache-first] call, although it finds the entry valid and
    counts a hit, calls the fetcher again. *)
Example scenario_cached_null :
  let fetcher : Fetcher := fun w => (Return VNull, w) in
  let first :=
    CachedAPIService.healthCheck CachedAPIService.new fetcher
      CachedAPIService.noOptions (mkWorld new 0) in
  let second :=
    CachedAPIService.healthCheck CachedAPIService.new fetcher
      CachedAPIService.noOptions (CachedAPIService.world first) in
  CachedAPIService.fetcherCalls first = 1%nat /\
  CachedAPIService.fetcherCalls second = 1%nat /\
  hits (stats (cache (CachedAPIService.world second))) = 1%nat /\
  misses (stats (cache (CachedAPIService.world second))) = 1%nat.
Proof. repeat split; vm_compute; reflexivity. Qed.

(** The built-in tasks at the default threshold and at [MEDIUM]. *)
Example scenario_warming :
  CacheWarmer.tierOrder
    (snd (CacheWarmer.warmCache true CacheWarmer.WARMING_TASKS (fun _ => true)
            None CacheWarmer.new)) = [1; 2] /\
  CacheWarmer.tierOrder
    (snd (CacheWarmer.warmCache true CacheWarmer.WARMING_TASKS (fun _ => true)
            (Some CacheWarmer.WARMING_PRIORITY.MEDIUM) CacheWarmer.new))
  = [1; 2; 3] /\
  fst (fst (CacheWarmer.warmCache false CacheWarmer.WARMING_TASKS
              (fun _ => true) None CacheWarmer.new)) = None.
Proof. repeat split; vm_compute; reflexivity. Qed.
End Scenarios.

(** * Further properties of the cache layer *)

(** ** The store: [has], [delete], [getMetadata] *)

Section StoreReads.
Import CacheManager.

Lemma isValid_lt entry now :
  CacheEntry.isValid entry now = true
  <-> now - CacheEntry.timestamp entry < CacheEntry.ttl entry.
Proof. unfold CacheEntry.isValid, CacheEntry.age. apply Z.ltb_lt. Qed.

Lemma isValid_ge entry now :
  CacheEntry.isValid entry now = false
  <-> CacheEntry.ttl entry <= now - CacheEntry.timestamp entry.
Proof. unfold CacheEntry.isValid, CacheEntry.age. apply Z.ltb_ge. Qed.
End StoreReads.

(** X1. [has] answers [true] exactly for a stored entry that is still
    valid, and then changes nothing: no counter moves and the entry
    keeps its access count and last access time. When it answers
    [false] the key is not stored afterwards (an expired entry is
    purged) while the counters, the invalidation counter included, and
    every other key stay as they were. [has] answers [true] exactly
    when [get] would count a hit. *)
Theorem has_is_a_silent_validity_check (key namespace : string) (now : Z)
    (cm : CacheManager.t) :
  let cacheKey := CacheManager._buildKey key namespace in
  let answer := fst (CacheManager.has key namespace now cm) in
  let cm' := snd (CacheManager.has key namespace now cm) in
  (answer = true <->
   exists entry,
     CacheManager.store cm !! cacheKey = Some entry /\
     now - CacheEntry.timestamp entry < CacheEntry.ttl entry) /\
  (answer = true -> cm' = cm) /\
  (answer = false -> CacheManager.store cm' !! cacheKey = None) /\
  CacheManager.stats cm' = CacheManager.stats cm /\
  (forall cacheKey',
      cacheKey' <> cacheKey ->
      CacheManager.store cm' !! cacheKey' = CacheManager.store cm !! cacheKey') /\
  (answer = true <->
   hits (CacheManager.stats (snd (CacheManager.get key namespace now cm)))
   = S (hits (CacheManager.stats cm))).
Proof.
  intros cacheKey answer cm'. subst answer cm'.
  unfold CacheManager.has, CacheManager.get. fold cacheKey.
  destruct (CacheManager.store cm !! cacheKey) as [entry|] eqn:Hin; simpl.
  - destruct (CacheEntry.isValid entry now) eqn:Hvalid; simpl.
    + apply isValid_lt in Hvalid.
      repeat split; try done; try discriminate; eauto.
    + apply isValid_ge in Hvalid. repeat split; try done.
      * intros (entry' & Heq & Hlt). inversion Heq; subst. lia.
      * intros _. apply lookup_delete_eq.
      * intros cacheKey' Hne. now apply lookup_delete_ne.
      * lia.
  - repeat split; try done.
    + intros (entry' & Heq & _). discriminate.
    + lia.
Qed.

(** X2. [delete] answers whether the key was stored. Afterwards the key is
    not stored, the other keys are as they were, and the invalidation
    counter has moved by one exactly when something was removed; a
    second [delete] of the same key answers [false] and changes
    nothing. *)
Theorem delete_reports_removal (key namespace : string)
    (cm : CacheManager.t) :
  let cacheKey := CacheManager._buildKey key namespace in
  let deleted := fst (CacheManager.delete key namespace cm) in
  let cm' := snd (CacheManager.delete key namespace cm) in
  (deleted = true <-> is_Some (CacheManager.store cm !! cacheKey)) /\
  CacheManager.store cm' !! cacheKey = None /\
  (forall cacheKey',
      cacheKey' <> cacheKey ->
      CacheManager.store cm' !! cacheKey' = CacheManager.store cm !! cacheKey') /\
  invalidations (CacheManager.stats cm')
  = (invalidations (CacheManager.stats cm) + if deleted then 1 else 0)%nat /\
  (deleted = true ->
   S (CacheManager.entryCount cm') = CacheManager.entryCount cm) /\
  (deleted = false -> cm' = cm) /\
  CacheManager.delete key namespace cm' = (false, cm').
Proof.
  intros cacheKey deleted cm'. subst deleted cm'.
  pose proof (delete_lookup key namespace cm) as Hgone.
  pose proof (fun ck => delete_lookup_ne key namespace cm ck) as Hother.
  fold cacheKey in Hgone, Hother.
  split; [|split; [exact Hgone|split; [exact Hother|]]].
  - unfold CacheManager.delete. fold cacheKey.
    destruct (CacheManager.store cm !! cacheKey); simpl; split; eauto;
      try discriminate. intros [? ?]. discriminate.
  - split; [|split; [|split]].
    + unfold CacheManager.delete. fold cacheKey.
      destruct (CacheManager.store cm !! cacheKey); simpl; lia.
    + unfold CacheManager.delete, CacheManager.entryCount. fold cacheKey.
      destruct (CacheManager.store cm !! cacheKey) as [entry|] eqn:Hin;
        simpl; [intros _|discriminate].
      rewrite map_size_delete_Some by (rewrite Hin; eauto).
      assert (size (CacheManager.store cm) <> 0%nat); [|lia].
      intros Hz. apply map_size_empty_inv in Hz. rewrite Hz in Hin.
      now rewrite lookup_empty in Hin.
    + unfold CacheManager.delete. fold cacheKey.
      now destruct (CacheManager.store cm !! cacheKey).
    + unfold CacheManager.delete at 1. fold cacheKey. now rewrite Hgone.
Qed.


(** ** The store: namespaces, [clear], [prune], TTL defaults *)

Section StoreBulk.
Import CacheManager.

Lemma substring_whole s : String.substring 0 (String.length s) s = s.
Proof. induction s as [|c s IH]; simpl; [reflexivity|now rewrite IH]. Qed.

(** The bare key is what follows the prefix of the store key. *)
Lemma substringFrom_buildKey key namespace :
  JS.substringFrom (String.length namespace + 1) (_buildKey key namespace) = key.
Proof.
  unfold JS.substringFrom, _buildKey.
  induction namespace as [|c ns IH].
  - rewrite append_empty. change (":" +:+ key) with (String ":" key).
    simpl. rewrite Nat.sub_0_r. apply substring_whole.
  - rewrite append_cons. simpl. exact IH.
Qed.

Lemma map_to_list_filter_perm (P : string * CacheEntry.t -> Prop)
    `{!forall kv, Decision (P kv)} (m : gmap string CacheEntry.t) :
  map_to_list (filter P m) ≡ₚ filter P (map_to_list m).
Proof.
  rewrite map_filter_alt. apply map_to_list_to_map.
  eapply sublist_NoDup; [apply (NoDup_fst_map_to_list m)|].
  apply fmap_sublist, sublist_filter.
Qed.

Lemma size_filter_split_kv (hit : string * CacheEntry.t -> bool)
    (m : gmap string CacheEntry.t) :
  (size (filter (fun kv => hit kv = false) m)
   + size (filter (fun kv => hit kv = true) m))%nat = size m.
Proof.
  rewrite <- (map_filter_union_complement
                (fun kv : string * CacheEntry.t => hit kv = false) m) at 3.
  rewrite map_size_disj_union by apply map_disjoint_filter_complement.
  f_equal. f_equal. apply map_filter_ext. intros i x _. simpl.
  now destruct (hit (i, x)).
Qed.
End StoreBulk.

(** X4. [getNamespaceEntries] lists exactly the stored entries whose store
    key begins with [namespace:], valid or expired, without purging
    any; an entry stored for [(namespace, key)] appears under its bare
    key [key]. Clearing the namespace removes as many entries as the
    list is long. *)
Theorem getNamespaceEntries_lists_the_namespace (namespace : string) (now : Z)
    (cm : CacheManager.t) :
  let item cacheKey entry :=
    {| CacheManager.ne_key :=
         JS.substringFrom (String.length namespace + 1) cacheKey;
       CacheManager.ne_isValid := CacheEntry.isValid entry now;
       CacheManager.ne_ttl := CacheEntry.ttl entry;
       CacheManager.ne_timeToLive := CacheEntry.getTimeToLive entry now;
       CacheManager.ne_accessCount := CacheEntry.accessCount entry |} in
  (forall it,
      it ∈ CacheManager.getNamespaceEntries namespace now cm <->
      exists cacheKey entry,
        CacheManager.store cm !! cacheKey = Some entry /\
        CacheManager.inNamespace namespace cacheKey = true /\
        it = item cacheKey entry) /\
  (forall key entry,
      CacheManager.store cm !! CacheManager._buildKey key namespace = Some entry ->
      exists it,
        it ∈ CacheManager.getNamespaceEntries namespace now cm /\
        CacheManager.ne_key it = key /\
        CacheManager.ne_isValid it = CacheEntry.isValid entry now /\
        CacheManager.ne_accessCount it = CacheEntry.accessCount entry) /\
  (namespace <> "" ->
   (CacheManager.entryCount (CacheManager.clear (Some namespace) cm)
    + length (CacheManager.getNamespaceEntries namespace now cm))%nat
   = CacheManager.entryCount cm).
Proof.
  intros item.
  assert (Hmem : forall it,
    it ∈ CacheManager.getNamespaceEntries namespace now cm <->
    exists cacheKey entry,
      CacheManager.store cm !! cacheKey = Some entry /\
      CacheManager.inNamespace namespace cacheKey = true /\
      it = item cacheKey entry).
  { intros it. unfold CacheManager.getNamespaceEntries.
    rewrite list_elem_of_fmap. split.
    - intros ([cacheKey entry] & -> & Hin).
      apply list_elem_of_filter in Hin as [Hns Hin].
      apply elem_of_map_to_list in Hin. exists cacheKey, entry. auto.
    - intros (cacheKey & entry & Hin & Hns & ->).
      exists (cacheKey, entry). split; [reflexivity|].
      apply list_elem_of_filter. split; [exact Hns|].
      now apply elem_of_map_to_list. }
  split; [exact Hmem|]. split.
  - intros key entry Hin.
    exists (item (CacheManager._buildKey key namespace) entry). split.
    + apply Hmem. exists (CacheManager._buildKey key namespace), entry.
      split; [exact Hin|]. split; [apply inNamespace_buildKey|reflexivity].
    + simpl. split; [apply substringFrom_buildKey|]. split; reflexivity.
  - intros Hne. unfold CacheManager.getNamespaceEntries, CacheManager.clear.
    destruct (String.eqb_spec namespace ""); [contradiction|]. simpl.
    rewrite length_fmap.
    rewrite <- (map_to_list_filter_perm
      (fun kv => CacheManager.inNamespace namespace (fst kv) = true)).
    rewrite length_map_to_list. unfold CacheManager.entryCount. simpl.
    apply (size_filter_split_kv
             (fun kv => CacheManager.inNamespace namespace (fst kv))).
Qed.

(** X5. [clear] with no namespace, with [null] or with the empty string
    empties the whole store; with a non-empty namespace it removes the
    keys that begin with [namespace:] and no other. In every case the
    counters and the TTL defaults are kept, so a [get] after [clear]
    adds to the counters of before. *)
Theorem clear_keeps_the_counters (namespace : option string)
    (cm : CacheManager.t) :
  CacheManager.stats (CacheManager.clear namespace cm) = CacheManager.stats cm /\
  CacheManager.defaultTTLs (CacheManager.clear namespace cm)
  = CacheManager.defaultTTLs cm /\
  CacheManager.store (CacheManager.clear None cm) = ∅ /\
  CacheManager.clear (Some "") cm = CacheManager.clear None cm /\
  (forall ns cacheKey,
      ns <> "" ->
      CacheManager.store (CacheManager.clear (Some ns) cm) !! cacheKey
      = if CacheManager.inNamespace ns cacheKey then None
        else CacheManager.store cm !! cacheKey) /\
  (forall ns key now,
      ns <> "" ->
      let out := CacheManager.get key ns now (CacheManager.clear (Some ns) cm) in
      fst out = VNull /\
      misses (CacheManager.stats (snd out)) = S (misses (CacheManager.stats cm))).
Proof.
  split; [|split; [|split; [|split; [|split]]]].
  - destruct namespace as [ns|]; [|reflexivity]. unfold CacheManager.clear.
    now destruct (negb (String.eqb ns "")).
  - destruct namespace as [ns|]; [|reflexivity]. unfold CacheManager.clear.
    now destruct (negb (String.eqb ns "")).
  - reflexivity.
  - reflexivity.
  - intros ns cacheKey Hne. now apply clear_lookup.
  - intros ns key now Hne out. subst out.
    rewrite get_miss.
    + simpl. split; [reflexivity|]. unfold CacheManager.clear.
      now destruct (negb (String.eqb ns "")).
    + rewrite clear_lookup by exact Hne. now rewrite inNamespace_buildKey.
Qed.

(** X6. [prune] removes the expired entries and no other, and returns how
    many it removed. It moves no counter (an entry removed by [prune]
    is not counted as an invalidation). Pruning again at the same time
    removes nothing, and after a prune no [get] at that time finds an
    expired entry. *)
Theorem prune_removes_exactly_the_expired (now : Z) (cm : CacheManager.t) :
  let pruned := fst (CacheManager.prune now cm) in
  let cm' := snd (CacheManager.prune now cm) in
  (forall cacheKey,
      CacheManager.store cm' !! cacheKey
      = match CacheManager.store cm !! cacheKey with
        | Some entry =>
            if CacheEntry.isValid entry now then Some entry else None
        | None => None
        end) /\
  (pruned + CacheManager.entryCount cm')%nat = CacheManager.entryCount cm /\
  CacheManager.stats cm' = CacheManager.stats cm /\
  CacheManager.prune now cm' = (0%nat, cm') /\
  (forall key namespace,
      invalidations
        (CacheManager.stats (snd (CacheManager.get key namespace now cm')))
      = invalidations (CacheManager.stats cm)).
Proof.
  intros pruned cm'. subst pruned cm'. unfold CacheManager.prune. simpl.
  assert (Hlookup : forall cacheKey,
    filter (fun kv => CacheEntry.isValid (snd kv) now = true)
           (CacheManager.store cm) !! cacheKey
    = match CacheManager.store cm !! cacheKey with
      | Some entry => if CacheEntry.isValid entry now then Some entry else None
      | None => None
      end).
  { intros cacheKey.
    destruct (CacheManager.store cm !! cacheKey) as [entry|] eqn:Hin.
    - destruct (CacheEntry.isValid entry now) eqn:Hvalid.
      + apply map_lookup_filter_Some. auto.
      + apply map_lookup_filter_None. right. intros x Hx. simpl. congruence.
    - apply map_lookup_filter_None. now left. }
  split; [exact Hlookup|]. split; [|split; [reflexivity|split]].
  - unfold CacheManager.entryCount. simpl.
    apply (size_filter_split_kv (fun kv => CacheEntry.isValid (snd kv) now)).
  - unfold CacheManager.withStore. simpl. f_equal.
    + apply map_size_empty_iff, map_eq. intros cacheKey.
      rewrite lookup_empty. apply map_lookup_filter_None. right.
      intros x Hx. simpl. apply map_lookup_filter_Some in Hx as [_ Hx].
      simpl in Hx. congruence.
    + f_equal. apply map_eq. intros cacheKey. apply option_eq. intros x.
      rewrite !map_lookup_filter_Some. tauto.
  - intros key namespace. unfold CacheManager.get. simpl.
    rewrite Hlookup.
    destruct (CacheManager.store cm !! CacheManager._buildKey key namespace)
      as [entry|]; [|reflexivity].
    destruct (CacheEntry.isValid entry now) eqn:Hvalid; [|reflexivity].
    now rewrite Hvalid.
Qed.


(** Where [defaultTTLs[namespace]] reads an inherited member: a write
    without a truthy [ttl] into a namespace named after a member of
    [Object.prototype]. An explicit [ttl] or any other namespace reads
    own slots only. *)
Example readsOwnSlots_at_inherited_names :
  readsOwnSlots None "constructor" = false /\
  readsOwnSlots (Some 0) "toString" = false /\
  readsOwnSlots None "__proto__" = false /\
  readsOwnSlots (Some 5000) "constructor" = true /\
  readsOwnSlots None "lessons" = true /\
  readsOwnSlots (Some 0) "default" = true.
Proof. repeat split. Qed.

(** X8. [set] followed by [get], for a write whose TTL is read from own
    slots ([readsOwnSlots]: an explicit non-zero [ttl], or a namespace
    that is not an inherited name of [defaultTTLs]): while less than the
    final TTL has passed the stored value comes back, whatever it is,
    and [has] answers [true]; from then on [get] answers [null] and
    [has] answers [false]. Every [set] counts one write and moves no
    other counter. *)
Theorem set_then_get (key : string) (v : value) (namespace : string)
    (ttl : option Z) (now now' : Z) (cm : CacheManager.t) :
  let cm1 := CacheManager.set key v namespace ttl now cm in
  let final :=
    CacheManager.finalTTL ttl namespace (CacheManager.defaultTTLs cm) in
  (readsOwnSlots ttl namespace = true ->
   (now' - now < final ->
    fst (CacheManager.get key namespace now' cm1) = v /\
    fst (CacheManager.has key namespace now' cm1) = true) /\
   (final <= now' - now ->
    fst (CacheManager.get key namespace now' cm1) = VNull /\
    fst (CacheManager.has key namespace now' cm1) = false)) /\
  CacheManager.stats cm1 = CacheManager.written (CacheManager.stats cm) /\
  writes (CacheManager.stats cm1) = S (writes (CacheManager.stats cm)).
Proof.
  intros cm1 final.
  pose proof (set_lookup key v namespace ttl now cm) as Hin. fold cm1 in Hin.
  split; [|split; reflexivity].
  intros _. split.
  - intros Hlt. unfold CacheManager.get, CacheManager.has. rewrite Hin.
    unfold CacheEntry.isValid, CacheEntry.age. simpl. fold final.
    destruct (Z.ltb_spec (now' - now) final); [|lia]. split; reflexivity.
  - intros Hge. unfold CacheManager.get, CacheManager.has. rewrite Hin.
    unfold CacheEntry.isValid, CacheEntry.age. simpl. fold final.
    destruct (Z.ltb_spec (now' - now) final); [lia|]. split; reflexivity.
Qed.

Lemma set_then_get_witness :
  let cm1 :=
    CacheManager.set "all_lessons" (VNum 7) "lessons" None 0
      CacheManager.new in
  (readsOwnSlots None "lessons" = true /\
   299999 - 0
   < CacheManager.finalTTL None "lessons"
       (CacheManager.defaultTTLs CacheManager.new) /\
   CacheManager.finalTTL None "lessons"
     (CacheManager.defaultTTLs CacheManager.new) <= 300000 - 0) /\
  fst (CacheManager.get "all_lessons" "lessons" 299999 cm1) = VNum 7 /\
  fst (CacheManager.get "all_lessons" "lessons" 300000 cm1) = VNull.
Proof.
  intros cm1.
  assert (Hown : readsOwnSlots None "lessons" = true) by reflexivity.
  assert (Hlt : 299999 - 0
                < CacheManager.finalTTL None "lessons"
                    (CacheManager.defaultTTLs CacheManager.new))
    by (vm_compute; reflexivity).
  assert (Hge : CacheManager.finalTTL None "lessons"
                  (CacheManager.defaultTTLs CacheManager.new) <= 300000 - 0)
    by (vm_compute; discriminate).
  split; [split; [exact Hown|split; [exact Hlt|exact Hge]]|].
  split.
  - exact (proj1 (proj1 (proj1 (set_then_get "all_lessons" (VNum 7) "lessons"
                                  None 0 299999 CacheManager.new) Hown) Hlt)).
  - exact (proj1 (proj2 (proj1 (set_then_get "all_lessons" (VNum 7) "lessons"
                                  None 0 300000 CacheManager.new) Hown) Hge)).
Defined.

(** ** The size estimate *)

Section SizeEstimate.
Import CacheManager.

Lemma stringify_undefined v : JS.stringify v = None <-> v = VUndefined.
Proof. destruct v; simpl; split; congruence. Qed.

Lemma estimate_fold (l : list (string * CacheEntry.t)) (acc : completion nat) :
  let step := fun (totalSize : completion nat) (kv : string * CacheEntry.t) =>
    match totalSize with
    | Throw error => Throw error
    | Return n =>
        match JS.stringify (CacheEntry.data (snd kv)) with
        | Some text => Return (n + String.length text)%nat
        | None => Throw JS.TypeError
        end
    end in
  match acc with
  | Throw error => foldl step acc l = Throw error
  | Return n =>
      (Exists (fun kv => CacheEntry.data (snd kv) = VUndefined) l /\
       foldl step acc l = Throw JS.TypeError) \/
      (Forall (fun kv => CacheEntry.data (snd kv) <> VUndefined) l /\
       exists n', foldl step acc l = Return n')
  end.
Proof.
  intros step. revert acc. induction l as [|kv l IH]; intros acc.
  - destruct acc as [n|error]; simpl; [|reflexivity]. right. eauto.
  - destruct acc as [n|error]; simpl.
    + destruct (JS.stringify (CacheEntry.data (snd kv))) as [text|] eqn:Htext.
      * specialize (IH (Return (n + String.length text)%nat)). simpl in IH.
        destruct IH as [[Hex Hthrow]|[Hall Hret]].
        -- left. split; [now apply Exists_cons_tl|exact Hthrow].
        -- right. split; [|exact Hret]. constructor; [|exact Hall].
           intros Hu. apply stringify_undefined in Hu. congruence.
      * specialize (IH (Throw JS.TypeError)). simpl in IH. left.
        split; [|exact IH]. apply Exists_cons_hd.
        now apply stringify_undefined.
    + apply (IH (Throw error)).
Qed.
End SizeEstimate.

(** X9. [_estimateCacheSize], on which [getStats] relies, raises a
    TypeError exactly when some stored entry holds [undefined]
    ([JSON.stringify(undefined)] has no [length]); otherwise it returns
    a number. A single [set] of [undefined] is enough to make it
    raise. *)
Theorem estimateCacheSize_fails_on_undefined (cm : CacheManager.t) :
  ((exists cacheKey entry,
       CacheManager.store cm !! cacheKey = Some entry /\
       CacheEntry.data entry = VUndefined) <->
   CacheManager._estimateCacheSize cm = Throw JS.TypeError) /\
  ((forall cacheKey entry,
       CacheManager.store cm !! cacheKey = Some entry ->
       CacheEntry.data entry <> VUndefined) <->
   exists n, CacheManager._estimateCacheSize cm = Return n) /\
  (forall key namespace ttl now,
      CacheManager._estimateCacheSize
        (CacheManager.set key VUndefined namespace ttl now cm)
      = Throw JS.TypeError).
Proof.
  assert (Hcases : forall c : CacheManager.t,
    ((exists cacheKey entry,
         CacheManager.store c !! cacheKey = Some entry /\
         CacheEntry.data entry = VUndefined) /\
     CacheManager._estimateCacheSize c = Throw JS.TypeError) \/
    ((forall cacheKey entry,
         CacheManager.store c !! cacheKey = Some entry ->
         CacheEntry.data entry <> VUndefined) /\
     exists n, CacheManager._estimateCacheSize c = Return n)).
  { intros c. unfold CacheManager._estimateCacheSize.
    pose proof (estimate_fold (map_to_list (CacheManager.store c))
                  (Return 0%nat)) as Hfold. simpl in Hfold.
    destruct Hfold as [[Hex Hthrow]|[Hall Hret]].
    - left. split; [|exact Hthrow].
      apply Exists_exists in Hex as ([cacheKey entry] & Hin & Hu).
      apply elem_of_map_to_list in Hin. eauto.
    - right. split; [|exact Hret]. intros cacheKey entry Hin.
      rewrite Forall_forall in Hall.
      apply (Hall (cacheKey, entry)).
      now apply elem_of_map_to_list. }
  assert (Hiff : forall c : CacheManager.t,
    (exists cacheKey entry,
        CacheManager.store c !! cacheKey = Some entry /\
        CacheEntry.data entry = VUndefined) <->
    CacheManager._estimateCacheSize c = Throw JS.TypeError).
  { intros c. destruct (Hcases c) as [[Hex Hthrow]|[Hall [n Hret]]].
    - tauto.
    - split.
      + intros (cacheKey & entry & Hin & Hu). now apply Hall in Hin.
      + rewrite Hret. discriminate. }
  split; [apply Hiff|]. split.
  - destruct (Hcases cm) as [[Hex Hthrow]|[Hall Hret]].
    + split.
      * intros Hall. destruct Hex as (cacheKey & entry & Hin & Hu).
        now apply Hall in Hin.
      * intros [n Hret]. rewrite Hthrow in Hret. discriminate.
    + tauto.
  - intros key namespace ttl now. apply Hiff.
    eexists _, _. split; [apply set_lookup|reflexivity].
Qed.

(** ** [getOrFetch] *)

(** X10. [getOrFetch] calls the fetcher exactly when [get] answers [null].
    What the fetcher resolves to is stored as it is, with no look at a
    [success] or [error] field, and returned with [source: 'api']; an
    error of the fetcher is thrown again and nothing is written. When
    the TTL of the write is read from own slots ([readsOwnSlots]), the
    entry carries the final TTL and a later [getOrFetch] within it is
    served from the store, with [source: 'cache'], unless the stored
    value is [null]. *)
Theorem getOrFetch_stores_whatever_is_fetched (key : string)
    (fetcher : Fetcher) (namespace : string) (ttl : option Z) (w : World) :
  let cacheKey := CacheManager._buildKey key namespace in
  let cached := fst (CacheManager.get key namespace (clock w) (cache w)) in
  let w0 :=
    withCache w (snd (CacheManager.get key namespace (clock w) (cache w))) in
  let out := CacheService.getOrFetch key fetcher namespace ttl w in
  (cached <> VNull ->
   CacheService.fetcherCalls out = 0%nat /\
   CacheService.result out
   = Return (VObj [("data", cached); ("source", VStr "cache")]) /\
   CacheService.world out = w0) /\
  (cached = VNull ->
   CacheService.fetcherCalls out = 1%nat /\
   (forall data w1,
       fetcher w0 = (Return data, w1) ->
       CacheService.result out
       = Return (VObj [("data", data); ("source", VStr "api")]) /\
       (exists entry,
           CacheManager.store (cache (CacheService.world out)) !! cacheKey
           = Some entry /\
           CacheEntry.data entry = data /\
           CacheEntry.timestamp entry = clock w1 /\
           (readsOwnSlots ttl namespace = true ->
            CacheEntry.ttl entry
            = CacheManager.finalTTL ttl namespace
                (CacheManager.defaultTTLs (cache w1)))) /\
       (forall fetcher' later,
           readsOwnSlots ttl namespace = true ->
           data <> VNull ->
           later - clock w1
           < CacheManager.finalTTL ttl namespace
               (CacheManager.defaultTTLs (cache w1)) ->
           let again :=
             CacheService.getOrFetch key fetcher' namespace ttl
               (mkWorld (cache (CacheService.world out)) later) in
           CacheService.fetcherCalls again = 0%nat /\
           CacheService.result again
           = Return (VObj [("data", data); ("source", VStr "cache")]))) /\
   (forall error w1,
       fetcher w0 = (Throw error, w1) ->
       CacheService.result out = Throw error /\
       CacheService.world out = w1)).
Proof.
  intros cacheKey cached w0 out. subst cached w0 out.
  unfold CacheService.getOrFetch.
  destruct (CacheManager.get key namespace (clock w) (cache w))
    as [cached cm] eqn:Hget. simpl.
  split.
  - intros Hne. destruct cached; try contradiction; repeat split.
  - intros ->. destruct (fetcher (withCache w cm)) as [[data|error] w1] eqn:Hf;
      simpl; (split; [reflexivity|]); split.
    + intros data' w1' Heq. inversion Heq; subst data' w1'.
      split; [reflexivity|]. split.
      * eexists. split; [apply set_lookup|].
        split; [reflexivity|]. split; [reflexivity|]. intros _. reflexivity.
      * intros fetcher' later _ Hdata Hlater.
        unfold CacheService.getOrFetch. simpl.
        rewrite (get_valid key namespace later _ _
                   (set_lookup key data namespace ttl (clock w1) (cache w1)))
          by exact Hlater.
        simpl. destruct data; try contradiction; split; reflexivity.
    + intros error w1' Heq. discriminate.
    + intros data w1' Heq. discriminate.
    + intros error' w1' Heq. inversion Heq; subst. split; reflexivity.
Qed.

Lemma getOrFetch_stores_whatever_is_fetched_witness :
  let failed := VObj [("success", VBool false); ("error", VStr "500")] in
  let out :=
    CacheService.getOrFetch "lessons" (fun w => (Return failed, w)) "lessons"
      None (mkWorld CacheManager.new 0) in
  let again :=
    CacheService.getOrFetch "lessons" (fun w => (Throw (VStr "offline"), w))
      "lessons" None (mkWorld (cache (CacheService.world out)) 299999) in
  CacheService.result out
  = Return (VObj [("data", failed); ("source", VStr "api")]) /\
  CacheService.fetcherCalls again = 0%nat /\
  CacheService.result again
  = Return (VObj [("data", failed); ("source", VStr "cache")]).
Proof.
  intros failed out again.
  pose proof (proj1 (proj2 (proj2
    (getOrFetch_stores_whatever_is_fetched "lessons"
       (fun w => (Return failed, w)) "lessons" None
       (mkWorld CacheManager.new 0)) eq_refl)) failed _ eq_refl) as H.
  cbv zeta in H. destruct H as (Hresult & _ & Hlater).
  split; [exact Hresult|].
  refine (Hlater (fun w => (Throw (VStr "offline"), w)) 299999 eq_refl _ _).
  - discriminate.
  - vm_compute. reflexivity.
Defined.

(** ** [cachedCall]: when the network is used and what is written *)

(** X11. [cachedCall] invokes the fetcher at most once, and not at all in
    one case only: [skipCache] is off, the strategy is [cache-first]
    and [get] answers something other than [null]; the answer is then
    returned tagged [cache]. Any other strategy string, known or not,
    goes to the network. With [skipCache] the call is the fetcher's:
    same completion, and the world the fetcher left (nothing is read,
    counted or written). *)
Theorem cachedCall_uses_network_unless_cache_first_hit
    (svc : CachedAPIService.t) (endpoint : string) (fetcher : Fetcher)
    (options : CachedAPIService.Options) (w : World) :
  let strategy := default "cache-first" (CachedAPIService.strategy options) in
  let key := default endpoint (CachedAPIService.cacheKey options) in
  let ns := CachedAPIService.namespace
              (CachedAPIService.getCacheConfig svc endpoint) in
  let cached := fst (CacheManager.get key ns (clock w) (cache w)) in
  let out := CachedAPIService.cachedCall svc endpoint fetcher options w in
  (CachedAPIService.fetcherCalls out = 0%nat <->
   CachedAPIService.skipCache options = false /\
   strategy = "cache-first" /\ cached <> VNull) /\
  (CachedAPIService.fetcherCalls out <> 0%nat ->
   CachedAPIService.fetcherCalls out = 1%nat) /\
  (CachedAPIService.fetcherCalls out = 0%nat ->
   CachedAPIService.result out = Return (JS.tagged cached "cache")) /\
  (CachedAPIService.skipCache options = true ->
   (CachedAPIService.result out, CachedAPIService.world out) = fetcher w).
Proof.
  intros strategy key ns cached out. subst cached out.
  unfold CachedAPIService.cachedCall. fold strategy key ns.
  destruct (CachedAPIService.skipCache options) eqn:Hskip.
  - destruct (fetcher w) as [r w1]. simpl.
    intuition (discriminate || congruence).
  - destruct (String.eqb_spec strategy "cache-first") as [Hs|Hs].
    + destruct (CacheManager.get key ns (clock w) (cache w)) as [cached cm].
      lazy beta iota zeta. unfold fst.
      destruct cached; lazy beta iota;
        try (simpl; intuition (discriminate || congruence); fail).
      rewrite fetchAndCache_calls. intuition (discriminate || congruence).
    + rewrite fetchAndCache_calls. intuition (discriminate || congruence).
Qed.

Section CacheFirstHit.
Import CachedAPIService.

Lemma cachedCall_cache_first_hit svc endpoint fetcher options w entry :
  skipCache options = false ->
  default "cache-first" (strategy options) = "cache-first" ->
  CacheManager.store (cache w)
    !! CacheManager._buildKey (default endpoint (cacheKey options))
         (namespace (getCacheConfig svc endpoint)) = Some entry ->
  clock w - CacheEntry.timestamp entry < CacheEntry.ttl entry ->
  CacheEntry.data entry <> VNull ->
  fetcherCalls (cachedCall svc endpoint fetcher options w) = 0%nat /\
  result (cachedCall svc endpoint fetcher options w)
  = Return (JS.tagged (CacheEntry.data entry) "cache").
Proof.
  intros Hskip Hs Hin Hage Hdata. unfold cachedCall.
  rewrite Hskip, Hs, String.eqb_refl.
  rewrite (get_valid _ _ _ _ entry Hin Hage).
  now destruct (CacheEntry.data entry).
Qed.
End CacheFirstHit.



Section Properties_of_objects.

Lemma assoc_setProp (k : string) (v : value) (props : list (string * value)) :
  JS.assoc k (JS.setProp k v props) = Some v /\
  forall k', k' <> k -> JS.assoc k' (JS.setProp k v props) = JS.assoc k' props.
Proof.
  induction props as [|[k0 v0] props [IH1 IH2]]; simpl.
  - rewrite String.eqb_refl. split; [reflexivity|]. intros k' Hk.
    now destruct (String.eqb_spec k' k).
  - destruct (String.eqb_spec k k0) as [<-|Hne]; simpl.
    + rewrite String.eqb_refl. split; [reflexivity|]. intros k' Hk.
      now destruct (String.eqb_spec k' k).
    + destruct (String.eqb_spec k k0); [contradiction|].
      split; [exact IH1|]. intros k' Hk.
      destruct (String.eqb_spec k' k0); [reflexivity|now apply IH2].
Qed.

Lemma string_of_Z_of_nat_not_source i :
  JS.string_of_Z (Z.of_nat i) <> "_source".
Proof.
  unfold JS.string_of_Z.
  destruct (Z.to_int (Z.of_nat i)) as [d|d] eqn:Hd.
  - destruct d; discriminate.
  - destruct i; discriminate.
Qed.

Lemma setProp_indexed_fresh (k : string) (v : value) (l : list value) i :
  (forall j, JS.string_of_Z (Z.of_nat j) <> k) ->
  JS.setProp k v (JS.indexed (fun x => x) i l)
  = JS.indexed (fun x => x) i l ++ [(k, v)].
Proof.
  intros Hfresh. revert i. induction l as [|x l IH]; intros i; simpl;
    [reflexivity|].
  destruct (String.eqb_spec k (JS.string_of_Z (Z.of_nat i))) as [Heq|_].
  - symmetry in Heq. now apply Hfresh in Heq.
  - now rewrite IH.
Qed.
Lemma tagged_props (v : value) (tag : string) :
  exists props,
    JS.tagged v tag = VObj props /\
    JS.assoc "_source" props = Some (VStr tag) /\
    forall k, k <> "_source" -> JS.assoc k props = JS.assoc k (JS.ownProps v).
Proof.
  destruct (assoc_setProp "_source" (VStr tag) (JS.ownProps v))
    as [Hsource Hother].
  eexists. split; [reflexivity|]. split; [exact Hsource|exact Hother].
Qed.

Lemma tagged_array (xs : list value) (tag : string) :
  JS.tagged (VArr xs) tag
  = VObj (JS.indexed (fun x => x) 0 xs ++ [("_source", VStr tag)]).
Proof.
  unfold JS.tagged. f_equal.
  apply setProp_indexed_fresh, string_of_Z_of_nat_not_source.
Qed.
End Properties_of_objects.

Lemma cachedCall_network_first_served svc endpoint fetcher options w error w1
    entry :
  CachedAPIService.skipCache options = false ->
  CachedAPIService.strategy options = Some "network-first" ->
  fetcher w = (Throw error, w1) ->
  CacheManager.store (cache w1)
    !! CacheManager._buildKey
         (default endpoint (CachedAPIService.cacheKey options))
         (CachedAPIService.namespace
            (CachedAPIService.getCacheConfig svc endpoint)) = Some entry ->
  clock w1 - CacheEntry.timestamp entry < CacheEntry.ttl entry ->
  CacheEntry.data entry <> VNull ->
  CachedAPIService.cachedCall svc endpoint fetcher options w
  = CachedAPIService.mkOutcome
      (Return (JS.tagged (CacheEntry.data entry) "cache-fallback"))
      (withCache w1
         (snd (CacheManager.get
                 (default endpoint (CachedAPIService.cacheKey options))
                 (CachedAPIService.namespace
                    (CachedAPIService.getCacheConfig svc endpoint))
                 (clock w1) (cache w1))))
      1.
Proof.
  intros Hskip Hstrategy Hf Hin Hage Hdata.
  rewrite cachedCall_not_cache_first
    by (try exact Hskip; rewrite Hstrategy; discriminate).
  rewrite Hstrategy. cbn [default from_option id].
  unfold CachedAPIService.fetchAndCache. rewrite Hf.
  cbn [String.eqb Ascii.eqb Bool.eqb].
  rewrite (get_valid _ _ _ _ entry Hin Hage).
  destruct (CacheEntry.data entry); try contradiction; reflexivity.
Qed.

(** X13. What [cachedCall] serves from the store. A [cache-first] hit
    makes no call of the fetcher and returns a fresh object with the
    [_source] tag [cache]; under [network-first], when the fetcher
    throws and a valid entry is stored, the same holds with the tag
    [cache-fallback] after the one call of the fetcher. In both, the
    cached value is other than [null] (a cached [null] is never served)
    and the object is built by spreading it: a [_source] of the cached
    value is replaced and its other properties are kept; a cached array
    comes back as an object keyed by its indices; a cached number,
    boolean or [undefined] comes back as an object holding the tag
    alone. *)
Theorem cachedCall_serves_a_tagged_copy (svc : CachedAPIService.t)
    (endpoint : string) (fetcher : Fetcher)
    (options : CachedAPIService.Options) (w : World) (entry : CacheEntry.t) :
  let key := default endpoint (CachedAPIService.cacheKey options) in
  let ns := CachedAPIService.namespace
              (CachedAPIService.getCacheConfig svc endpoint) in
  let out := CachedAPIService.cachedCall svc endpoint fetcher options w in
  let cached := CacheEntry.data entry in
  let served (calls : nat) (tag : string) :=
    CachedAPIService.fetcherCalls out = calls /\
    (exists props,
        CachedAPIService.result out = Return (VObj props) /\
        JS.assoc "_source" props = Some (VStr tag) /\
        forall k, k <> "_source" ->
                  JS.assoc k props = JS.assoc k (JS.ownProps cached)) /\
    match cached with
    | VUndefined | VBool _ | VNum _ =>
        CachedAPIService.result out = Return (VObj [("_source", VStr tag)])
    | VArr xs =>
        CachedAPIService.result out
        = Return (VObj (JS.indexed (fun x => x) 0 xs
                          ++ [("_source", VStr tag)]))
    | _ => True
    end in
  CachedAPIService.skipCache options = false ->
  cached <> VNull ->
  (default "cache-first" (CachedAPIService.strategy options) = "cache-first" ->
   CacheManager.store (cache w) !! CacheManager._buildKey key ns = Some entry ->
   CacheEntry.isValid entry (clock w) = true ->
   served 0%nat "cache") /\
  (forall error w1,
      CachedAPIService.strategy options = Some "network-first" ->
      fetcher w = (Throw error, w1) ->
      CacheManager.store (cache w1) !! CacheManager._buildKey key ns
      = Some entry ->
      CacheEntry.isValid entry (clock w1) = true ->
      served 1%nat "cache-fallback").
Proof.
  intros key ns out cached served Hskip Hdata.
  assert (Hshape : forall calls tag,
    CachedAPIService.fetcherCalls out = calls ->
    CachedAPIService.result out = Return (JS.tagged cached tag) ->
    served calls tag).
  { intros calls tag Hcalls Hresult. unfold served.
    split; [exact Hcalls|]. split.
    - destruct (tagged_props cached tag) as (props & Heq & Hsource & Hother).
      exists props. rewrite Hresult, Heq. auto.
    - rewrite Hresult. destruct cached; try exact I; try reflexivity.
      now rewrite tagged_array. }
  split.
  - intros Hs Hin Hvalid. apply isValid_lt in Hvalid.
    destruct (cachedCall_cache_first_hit svc endpoint fetcher options w entry
                Hskip Hs Hin Hvalid Hdata) as [Hcalls Hresult].
    now apply Hshape.
  - intros error w1 Hstrategy Hf Hin Hvalid. apply isValid_lt in Hvalid.
    pose proof (cachedCall_network_first_served svc endpoint fetcher options
                  w error w1 entry Hskip Hstrategy Hf Hin Hvalid Hdata) as Heq.
    apply Hshape; unfold out; now rewrite Heq.
Qed.

Lemma cachedCall_serves_a_tagged_copy_witness :
  let w :=
    mkWorld (CacheManager.set "all_lessons" (VArr [VStr "a"; VStr "b"])
               "lessons" None 0 CacheManager.new) 1 in
  CachedAPIService.result
    (CachedAPIService.cachedCall CachedAPIService.new "/lessons"
       (fun w0 => (Throw (VStr "offline"), w0))
       (CachedAPIService.mkOptions None (Some "all_lessons") false) w)
  = Return (VObj [("0", VStr "a"); ("1", VStr "b"); ("_source", VStr "cache")]).
Proof.
  intros w.
  exact (proj2 (proj2 (proj1
    (cachedCall_serves_a_tagged_copy CachedAPIService.new "/lessons"
       (fun w0 => (Throw (VStr "offline"), w0))
       (CachedAPIService.mkOptions None (Some "all_lessons") false) w
       (CacheEntry.new (VArr [VStr "a"; VStr "b"]) (5 * 60 * 1000)
          "lessons:all_lessons" 0)
       eq_refl ltac:(discriminate))
    eq_refl eq_refl eq_refl))).
Defined.

(** ** Endpoint configuration and invalidation *)

Section Invalidation.
Import CachedAPIService.

Lemma invalidate_absent key namespace cm :
  CacheManager.store cm !! CacheManager._buildKey key namespace = None ->
  CacheManager.invalidate key namespace cm = cm.
Proof.
  intros Hnone. unfold CacheManager.invalidate, CacheManager.delete.
  now rewrite Hnone.
Qed.

(** Every entry [invalidate] removes is counted. *)
Lemma invalidate_conserved key namespace cm :
  (invalidations (CacheManager.stats (CacheManager.invalidate key namespace cm))
   + CacheManager.entryCount (CacheManager.invalidate key namespace cm))%nat
  = (invalidations (CacheManager.stats cm) + CacheManager.entryCount cm)%nat.
Proof.
  unfold CacheManager.invalidate, CacheManager.delete, CacheManager.entryCount.
  destruct (CacheManager.store cm !! CacheManager._buildKey key namespace)
    as [entry|] eqn:Hin; simpl; [|reflexivity].
  rewrite map_size_delete_Some by (rewrite Hin; eauto).
  assert (size (CacheManager.store cm) <> 0%nat); [|lia].
  intros Hz. apply map_size_empty_inv in Hz. rewrite Hz in Hin.
  now rewrite lookup_empty in Hin.
Qed.

Lemma completeLesson_keeps cacheKey api w entry :
  cacheKey <> CacheManager._buildKey "all_lessons" "lessons" ->
  cacheKey <> CacheManager._buildKey "progress" "progress" ->
  CacheManager.store (cache (snd (api w))) !! cacheKey = Some entry ->
  CacheManager.store (cache (snd (completeLesson api w))) !! cacheKey
  = Some entry /\
  clock (snd (completeLesson api w)) = clock (snd (api w)).
Proof.
  intros Hl Hp Hin. unfold completeLesson, afterMutation.
  destruct (api w) as [[res|error] w1]; simpl in *; [|auto].
  destruct (JS.getProp res "success") as [ok|error]; simpl; [|auto].
  destruct (JS.truthy ok); simpl; [|auto]. split; [|reflexivity].
  rewrite !invalidate_lookup. repeat case_decide; congruence.
Qed.
End Invalidation.

(** X14. [setCacheConfig] followed by [getCacheConfig] gives back the TTL
    and the namespace ([default] when none was given) and leaves the
    other endpoints alone. The mutations do not follow it: once
    [/lessons] is configured with a namespace other than [lessons], a
    successful [completeLesson] no longer removes what [getAllLessons]
    reads, and the cached lessons keep being served. *)
Theorem setCacheConfig_moves_reads_not_invalidations
    (svc : CachedAPIService.t) (endpoint : string) (ttl : Z)
    (namespace : option string) :
  let svc' := CachedAPIService.setCacheConfig endpoint ttl namespace svc in
  CachedAPIService.getCacheConfig svc' endpoint
  = CachedAPIService.mkConfig ttl (default "default" namespace) /\
  (forall other,
      other <> endpoint ->
      CachedAPIService.getCacheConfig svc' other
      = CachedAPIService.getCacheConfig svc other) /\
  (forall api fetcher w entry,
      let readKey :=
        CacheManager._buildKey "all_lessons" (default "default" namespace) in
      endpoint = "/lessons" ->
      readKey <> CacheManager._buildKey "all_lessons" "lessons" ->
      readKey <> CacheManager._buildKey "progress" "progress" ->
      CacheManager.store (cache (snd (api w))) !! readKey = Some entry ->
      clock (snd (api w)) - CacheEntry.timestamp entry < CacheEntry.ttl entry ->
      CacheEntry.data entry <> VNull ->
      let out :=
        CachedAPIService.getAllLessons svc' fetcher CachedAPIService.noOptions
          (snd (CachedAPIService.completeLesson api w)) in
      CachedAPIService.fetcherCalls out = 0%nat /\
      CachedAPIService.result out
      = Return (JS.tagged (CacheEntry.data entry) "cache")).
Proof.
  intros svc'.
  assert (Hconf : CachedAPIService.getCacheConfig svc' endpoint
                  = CachedAPIService.mkConfig ttl (default "default" namespace)).
  { unfold CachedAPIService.getCacheConfig, svc',
      CachedAPIService.setCacheConfig. simpl. now rewrite lookup_insert_eq. }
  split; [exact Hconf|]. split.
  - intros other Hne. unfold CachedAPIService.getCacheConfig, svc',
      CachedAPIService.setCacheConfig. simpl.
    now rewrite lookup_insert_ne by congruence.
  - intros api fetcher w entry readKey -> Hl Hp Hin Hage Hdata out.
    destruct (completeLesson_keeps readKey api w entry Hl Hp Hin)
      as [Hkept Hclock].
    apply cachedCall_cache_first_hit; try reflexivity; try exact Hdata.
    + rewrite Hconf. exact Hkept.
    + rewrite Hclock. exact Hage.
Qed.

Lemma setCacheConfig_moves_reads_not_invalidations_witness :
  let svc' :=
    CachedAPIService.setCacheConfig "/lessons" 60000 (Some "catalog")
      CachedAPIService.new in
  let api : Fetcher := fun w => (Return (VObj [("success", VBool true)]), w) in
  let w :=
    mkWorld (CacheManager.set "all_lessons" (VObj [("n", VNum 1)]) "catalog"
               (Some 60000) 0 CacheManager.new) 1 in
  CachedAPIService.fetcherCalls
    (CachedAPIService.getAllLessons svc' api CachedAPIService.noOptions
       (snd (CachedAPIService.completeLesson api w)))
  = 0%nat.
Proof.
  intros svc' api w.
  refine (proj1 (proj2 (proj2
    (setCacheConfig_moves_reads_not_invalidations CachedAPIService.new
       "/lessons" 60000 (Some "catalog")))
    api api w
    (CacheEntry.new (VObj [("n", VNum 1)]) 60000 "catalog:all_lessons" 0)
    eq_refl _ _ _ _ _)).
  - discriminate.
  - discriminate.
  - vm_compute. reflexivity.
  - vm_compute. reflexivity.
  - discriminate.
Defined.

(** X15. [invalidateUserData] removes the entries [progress], [streak] and
    [all_lessons] of their namespaces and no other, counts one
    invalidation for each entry it really removes, and does nothing
    when run a second time. *)
Theorem invalidateUserData_removes_three_keys (cm : CacheManager.t) :
  let cm' := CachedAPIService.invalidateUserData cm in
  (forall cacheKey,
      CacheManager.store cm' !! cacheKey
      = if decide (cacheKey = CacheManager._buildKey "progress" "progress" \/
                   cacheKey = CacheManager._buildKey "streak" "streak" \/
                   cacheKey = CacheManager._buildKey "all_lessons" "lessons")
        then None else CacheManager.store cm !! cacheKey) /\
  (invalidations (CacheManager.stats cm') + CacheManager.entryCount cm')%nat
  = (invalidations (CacheManager.stats cm) + CacheManager.entryCount cm)%nat /\
  CachedAPIService.invalidateUserData cm' = cm'.
Proof.
  intros cm'.
  assert (Hlookup : forall cacheKey,
    CacheManager.store cm' !! cacheKey
    = if decide (cacheKey = CacheManager._buildKey "progress" "progress" \/
                 cacheKey = CacheManager._buildKey "streak" "streak" \/
                 cacheKey = CacheManager._buildKey "all_lessons" "lessons")
      then None else CacheManager.store cm !! cacheKey).
  { intros cacheKey. unfold cm', CachedAPIService.invalidateUserData.
    rewrite !invalidate_lookup. repeat case_decide; tauto || reflexivity. }
  split; [exact Hlookup|]. split.
  - unfold cm', CachedAPIService.invalidateUserData.
    now rewrite !invalidate_conserved.
  - unfold CachedAPIService.invalidateUserData at 1.
    rewrite (invalidate_absent "progress" "progress" cm')
      by (rewrite Hlookup; case_decide; tauto).
    rewrite (invalidate_absent "streak" "streak" cm')
      by (rewrite Hlookup; case_decide; tauto).
    apply invalidate_absent. rewrite Hlookup. case_decide; tauto.
Qed.

(** X16. [getLessonById] reads and writes the key [lesson_<id>]. As long as
    the endpoint [/lessons/<id>] has no configuration of its own the
    entry lives in the namespace [default]: it is outside the namespace
    [lessons], so clearing [lessons] keeps it, and a successful
    [completeLesson] keeps it too; the lesson stays served from the
    cache after it has been completed. *)
Theorem getLessonById_lives_in_default_namespace (svc : CachedAPIService.t)
    (lessonId : string) :
  CachedAPIService.cacheConfig svc !! ("/lessons/" +:+ lessonId) = None ->
  let cacheKey := CacheManager._buildKey ("lesson_" +:+ lessonId) "default" in
  CacheManager.inNamespace "lessons" cacheKey = false /\
  (forall fetcher w entry,
      CacheManager.store (cache w) !! cacheKey = Some entry ->
      clock w - CacheEntry.timestamp entry < CacheEntry.ttl entry ->
      CacheEntry.data entry <> VNull ->
      let out :=
        CachedAPIService.getLessonById svc lessonId fetcher
          CachedAPIService.noOptions w in
      CachedAPIService.fetcherCalls out = 0%nat /\
      CachedAPIService.result out
      = Return (JS.tagged (CacheEntry.data entry) "cache")) /\
  (forall cm,
      CacheManager.store (CacheManager.clear (Some "lessons") cm) !! cacheKey
      = CacheManager.store cm !! cacheKey) /\
  (forall api fetcher w entry,
      CacheManager.store (cache (snd (api w))) !! cacheKey = Some entry ->
      clock (snd (api w)) - CacheEntry.timestamp entry < CacheEntry.ttl entry ->
      CacheEntry.data entry <> VNull ->
      let out :=
        CachedAPIService.getLessonById svc lessonId fetcher
          CachedAPIService.noOptions
          (snd (CachedAPIService.completeLesson api w)) in
      CachedAPIService.fetcherCalls out = 0%nat /\
      CachedAPIService.result out
      = Return (JS.tagged (CacheEntry.data entry) "cache")).
Proof.
  intros Hnoconf cacheKey.
  assert (Hns : CachedAPIService.namespace
                  (CachedAPIService.getCacheConfig svc ("/lessons/" +:+ lessonId))
                = "default").
  { unfold CachedAPIService.getCacheConfig. now rewrite Hnoconf. }
  assert (Hout : CacheManager.inNamespace "lessons" cacheKey = false)
    by reflexivity.
  assert (Hserved : forall fetcher w entry,
    CacheManager.store (cache w) !! cacheKey = Some entry ->
    clock w - CacheEntry.timestamp entry < CacheEntry.ttl entry ->
    CacheEntry.data entry <> VNull ->
    CachedAPIService.fetcherCalls
      (CachedAPIService.getLessonById svc lessonId fetcher
         CachedAPIService.noOptions w) = 0%nat /\
    CachedAPIService.result
      (CachedAPIService.getLessonById svc lessonId fetcher
         CachedAPIService.noOptions w)
    = Return (JS.tagged (CacheEntry.data entry) "cache")).
  { intros fetcher w entry Hin Hage Hdata.
    apply cachedCall_cache_first_hit; try reflexivity; try assumption.
    rewrite Hns. exact Hin. }
  split; [exact Hout|]. split; [exact Hserved|]. split.
  - intros cm. rewrite clear_lookup by discriminate. now rewrite Hout.
  - intros api fetcher w entry Hin Hage Hdata out.
    destruct (completeLesson_keeps cacheKey api w entry) as [Hkept Hclock];
      try discriminate; try exact Hin.
    apply Hserved; [exact Hkept| |exact Hdata]. rewrite Hclock. exact Hage.
Qed.

Lemma getLessonById_lives_in_default_namespace_witness :
  CacheManager.inNamespace "lessons"
    (CacheManager._buildKey ("lesson_" +:+ "42") "default") = false.
Proof.
  apply (proj1 (getLessonById_lives_in_default_namespace CachedAPIService.new
                  "42" eq_refl)).
Defined.

(** ** A warming run as a whole *)

Section WarmingRun.
Import CacheWarmer.
Variable fulfilled : string -> bool.

(** The names of the tiers, in the order the tiers run. *)
Let namesOf (ts : list (Z * Registry)) : list string :=
  flat_map (fun tier => map fst (snd tier)) ts.

Let progressAdds (ev : Event) : Prop :=
  match ev with
  | Progress completed failed total _ => (completed + failed)%nat = total
  | _ => True
  end.

Lemma setAdd_fresh name names :
  name ∉ names -> setAdd name names = names ++ [name].
Proof.
  intros Hnotin. unfold setAdd.
  assert (Hex : existsb (String.eqb name) names = false).
  { induction names as [|n names IH]; [reflexivity|]. simpl.
    apply not_elem_of_cons in Hnotin as [Hne Hnotin].
    destruct (String.eqb_spec name n); [contradiction|]. now apply IH. }
  now rewrite Hex.
Qed.

Lemma record_names (names : list string) (st : t) :
  NoDup names ->
  (forall n, n ∈ names -> (n ∉ warmedTasks st) /\ (n ∉ failedTasks st)) ->
  let st' :=
    foldl (fun s name =>
             if fulfilled name
             then mk (isWarming s) (setAdd name (warmedTasks s)) (failedTasks s)
             else mk (isWarming s) (warmedTasks s) (setAdd name (failedTasks s)))
          st names in
  warmedTasks st' = warmedTasks st ++ List.filter fulfilled names /\
  failedTasks st'
  = failedTasks st ++ List.filter (fun n => negb (fulfilled n)) names /\
  isWarming st' = isWarming st.
Proof.
  revert st. induction names as [|name names IH]; intros st Hnd Hfresh; simpl.
  - now rewrite !app_nil_r.
  - apply NoDup_cons in Hnd as [Hnotin Hnd].
    destruct (Hfresh name (list_elem_of_here _ _)) as [Hw Hf].
    destruct (fulfilled name) eqn:Hok; simpl.
    + rewrite (setAdd_fresh _ _ Hw).
      destruct (IH (mk (isWarming st) (warmedTasks st ++ [name])
                       (failedTasks st)) Hnd) as (IHw & IHf & IHi).
      { intros n Hn. simpl. destruct (Hfresh n (list_elem_of_further _ _ _ Hn)).
        split; [|assumption]. rewrite elem_of_app, list_elem_of_singleton.
        intros [? | ->]; contradiction. }
      simpl in *. rewrite IHw, IHf, IHi, <- app_assoc. auto.
    + rewrite (setAdd_fresh _ _ Hf).
      destruct (IH (mk (isWarming st) (warmedTasks st)
                       (failedTasks st ++ [name])) Hnd) as (IHw & IHf & IHi).
      { intros n Hn. simpl. destruct (Hfresh n (list_elem_of_further _ _ _ Hn)).
        split; [assumption|]. rewrite elem_of_app, list_elem_of_singleton.
        intros [? | ->]; contradiction. }
      simpl in *. rewrite IHw, IHf, IHi, <- app_assoc. auto.
Qed.

Lemma startedNames_app (t1 t2 : list Event) :
  startedNames (t1 ++ t2) = startedNames t1 ++ startedNames t2.
Proof. unfold startedNames. apply omap_app. Qed.

Lemma startedNames_started (p : Z) (names : list string) :
  startedNames (map (fun name => Started name p) names) = names.
Proof.
  induction names as [|n names IH]; [reflexivity|].
  change (n :: startedNames (map (fun name => Started name p) names)
          = n :: names).
  now rewrite IH.
Qed.

Lemma filter_lengths (names : list string) :
  (length (List.filter fulfilled names)
   + length (List.filter (fun n => negb (fulfilled n)) names))%nat
  = length names.
Proof.
  induction names as [|n names IH]; [reflexivity|]. simpl.
  destruct (fulfilled n); simpl; lia.
Qed.

Lemma runTiers_summary (ts : list (Z * Registry)) (st : t) (n : nat)
    (trace : list Event) :
  NoDup (namesOf ts) ->
  (forall name, name ∈ namesOf ts ->
                (name ∉ warmedTasks st) /\ (name ∉ failedTasks st)) ->
  (length (warmedTasks st) + length (failedTasks st))%nat = n ->
  Forall progressAdds trace ->
  let out := foldl (fun acc tier => runTier fulfilled tier acc)
                   (st, n, trace) ts in
  warmedTasks (fst (fst out))
  = warmedTasks st ++ List.filter fulfilled (namesOf ts) /\
  failedTasks (fst (fst out))
  = failedTasks st ++ List.filter (fun x => negb (fulfilled x)) (namesOf ts) /\
  isWarming (fst (fst out)) = isWarming st /\
  snd (fst out) = (n + length (namesOf ts))%nat /\
  startedNames (snd out) = startedNames trace ++ namesOf ts /\
  Forall progressAdds (snd out).
Proof.
  revert st n trace.
  induction ts as [|tier ts IH]; intros st n trace Hnd Hfresh Hsum Hprog.
  - simpl. rewrite !app_nil_r. repeat split; auto.
  - intros out. unfold namesOf in Hnd, Hfresh. simpl in Hnd, Hfresh.
    fold (namesOf ts) in Hnd, Hfresh.
    apply NoDup_app in Hnd as (Hnd1 & Hdisj & Hnd2).
    destruct (record_names (map fst (snd tier)) st Hnd1) as (Hw & Hf & Hi).
    { intros x Hx. apply Hfresh. apply elem_of_app. now left. }
    set (st1 := foldl _ st (map fst (snd tier))) in *.
    set (trace1 := trace ++ map (fun name => Started name (fst tier))
                                (map fst (snd tier))
                         ++ [AllSettled (fst tier);
                             Progress (length (warmedTasks st1))
                                      (length (failedTasks st1))
                                      (n + length (map fst (snd tier)))
                                      (fst tier)]).
    assert (Hsum1 : (length (warmedTasks st1) + length (failedTasks st1))%nat
                    = (n + length (map fst (snd tier)))%nat).
    { rewrite Hw, Hf, !length_app.
      pose proof (filter_lengths (map fst (snd tier))). lia. }
    destruct (IH st1 (n + length (map fst (snd tier)))%nat trace1 Hnd2)
      as (IHw & IHf & IHi & IHn & IHs & IHp).
    { intros x Hx.
      destruct (Hfresh x) as [Hxw Hxf]; [apply elem_of_app; now right|].
      assert (Hx1 : x ∉ map fst (snd tier))
        by (intros Hin; now apply (Hdisj x Hin)).
      rewrite Hw, Hf, !elem_of_app.
      split; (intros [Hin|Hin]; [contradiction|]);
        apply list_elem_of_In, filter_In in Hin as [Hin _];
        apply list_elem_of_In in Hin; contradiction. }
    { exact Hsum1. }
    { unfold trace1. rewrite !Forall_app. split; [exact Hprog|]. split.
      - apply Forall_forall. intros ev Hev.
        apply list_elem_of_fmap in Hev as (name & -> & _). exact I.
      - repeat constructor. exact Hsum1. }
    assert (Hout : out
      = foldl (fun acc tier => runTier fulfilled tier acc)
              (st1, (n + length (map fst (snd tier)))%nat, trace1) ts)
      by reflexivity.
    rewrite Hout.
    change (namesOf (tier :: ts)) with (map fst (snd tier) ++ namesOf ts).
    rewrite IHw, IHf, IHi, IHn, IHs, Hw, Hf, Hi.
    rewrite !List.filter_app, !length_app, <- !app_assoc.
    repeat split; auto.
    + lia.
    + unfold trace1. rewrite !startedNames_app, startedNames_started.
      change (startedNames [AllSettled _; Progress _ _ _ _]) with (@nil string).
      now rewrite app_nil_r, <- app_assoc.
Qed.
End WarmingRun.

Section WarmingPartition.
Import CacheWarmer.

Lemma flat_map_perm {A B : Type} (f : A -> list B) (l l' : list A) :
  l ≡ₚ l' -> flat_map f l ≡ₚ flat_map f l'.
Proof.
  induction 1 as [|x l l' _ IH|x y l|l l' l'' _ IH1 _ IH2]; simpl.
  - reflexivity.
  - now rewrite IH.
  - rewrite !app_assoc. f_equiv. apply Permutation_app_comm.
  - now rewrite IH1.
Qed.

Lemma flat_map_names (ts : list (Z * Registry)) :
  flat_map (fun tier => map fst (snd tier)) ts = map fst (flat_map snd ts).
Proof.
  induction ts as [|tier ts IH]; [reflexivity|]. simpl.
  now rewrite IH, map_app.
Qed.

Lemma groupPush_entries p entry groups :
  flat_map snd (groupPush p entry groups) ≡ₚ flat_map snd groups ++ [entry].
Proof.
  induction groups as [|[q entries] groups IH]; [reflexivity|].
  cbn [groupPush]. destruct (p =? q); simpl.
  - rewrite <- !app_assoc. f_equiv. apply Permutation_app_comm.
  - rewrite IH. now rewrite app_assoc.
Qed.

Lemma priorityGroups_entries (tasks : Registry) (groups : list (Z * Registry)) :
  flat_map snd
    (foldl (fun groups nt => groupPush (priority (snd nt)) nt groups)
           groups tasks)
  ≡ₚ flat_map snd groups ++ tasks.
Proof.
  revert groups. induction tasks as [|nt tasks IH]; intros groups; simpl.
  - now rewrite app_nil_r.
  - rewrite IH, groupPush_entries, <- app_assoc. reflexivity.
Qed.

Lemma groupOf_keys (groups : list (Z * Registry)) :
  NoDup (map fst groups) ->
  map (fun p => (p, groupOf p groups)) (map fst groups) = groups.
Proof.
  induction groups as [|[q entries] groups IH]; intros Hnd; [reflexivity|].
  cbn [map fst] in *. apply NoDup_cons in Hnd as [Hnotin Hnd].
  cbn [groupOf]. rewrite Z.eqb_refl. f_equal.
  rewrite <- (IH Hnd) at 2. apply map_ext_in. intros p Hp.
  cbn [groupOf]. destruct (Z.eqb_spec p q) as [->|_]; [|reflexivity].
  exfalso. apply Hnotin. now apply list_elem_of_In.
Qed.

(** The tiers of a run hold the selected tasks, each once. *)
Lemma tiers_partition (reg : Registry) (priorityThreshold : Z) :
  flat_map snd (tiers reg priorityThreshold)
  ≡ₚ List.filter (fun nt => priority (snd nt) <=? priorityThreshold) reg.
Proof.
  unfold tiers.
  destruct (priorityGroups_keys (tasksToRun reg priorityThreshold) [])
    as [Hnd _]; [constructor|].
  fold (priorityGroups (tasksToRun reg priorityThreshold)) in Hnd.
  set (groups := priorityGroups (tasksToRun reg priorityThreshold)) in *.
  transitivity (flat_map snd groups).
  - rewrite <- (groupOf_keys groups Hnd) at 2.
    apply flat_map_perm, Permutation_map. unfold sortedPriorities.
    apply sortBy_perm.
  - unfold groups, priorityGroups. rewrite priorityGroups_entries. simpl.
    unfold tasksToRun. apply sortBy_perm.
Qed.

Lemma warmCache_summary reg fulfilled priorityThreshold st :
  NoDup (map fst reg) ->
  isWarming st = false ->
  let selected :=
    map fst
      (List.filter
         (fun nt => priority (snd nt)
                    <=? default WARMING_PRIORITY.HIGH priorityThreshold) reg) in
  let run := warmCache true reg fulfilled priorityThreshold st in
  exists names,
    names ≡ₚ selected /\
    startedNames (snd run) = names /\
    warmedTasks (snd (fst run)) = List.filter fulfilled names /\
    failedTasks (snd (fst run))
    = List.filter (fun n => negb (fulfilled n)) names /\
    isWarming (snd (fst run)) = false /\
    Forall (fun ev => match ev with
                      | Progress completed failed total _ =>
                          (completed + failed)%nat = total
                      | _ => True
                      end) (snd run) /\
    fst (fst run)
    = Some {| success :=
                (length (List.filter (fun n => negb (fulfilled n)) names)
                 =? 0)%nat;
              warmed := length (List.filter fulfilled names);
              failed := length (List.filter (fun n => negb (fulfilled n)) names);
              total := length names;
              failedNames := List.filter (fun n => negb (fulfilled n)) names |}.
Proof.
  intros Hnd Hidle selected run.
  set (threshold := default WARMING_PRIORITY.HIGH priorityThreshold) in *.
  set (names := flat_map (fun tier => map fst (snd tier)) (tiers reg threshold)).
  assert (Hperm : names ≡ₚ selected).
  { unfold names, selected. rewrite flat_map_names.
    apply Permutation_map, tiers_partition. }
  assert (Hnames : NoDup names).
  { rewrite Hperm. unfold selected.
    eapply sublist_NoDup; [exact Hnd|].
    apply fmap_sublist. clear. induction reg as [|nt reg IH]; simpl.
    - constructor.
    - destruct (_ <=? _); [now constructor|now apply sublist_cons]. }
  destruct (runTiers_summary fulfilled (tiers reg threshold) (mk true [] [])
              0%nat [] Hnames)
    as (Hw & Hf & Hi & Hn & Hs & Hp).
  { intros name _. split; apply not_elem_of_nil. }
  { reflexivity. }
  { constructor. }
  fold names in Hw, Hf, Hn, Hs.
  exists names. split; [exact Hperm|].
  subst run. unfold warmCache. rewrite Hidle. simpl negb. cbv iota.
  fold threshold.
  destruct (foldl _ _ (tiers reg threshold)) as [[st1 totalTasks] trace].
  simpl in Hw, Hf, Hi, Hn, Hs, Hp. simpl.
  rewrite Hw, Hf, Hn. repeat split; auto.
Qed.
End WarmingPartition.

(** X17. A run starts every registered task whose priority is within the
    threshold, each exactly once, and no other task, whatever the
    tasks do: a task that fails or times out stops neither the tasks of
    its tier nor the later tiers. *)
Theorem warmCache_starts_every_selected_task_once
    (reg : CacheWarmer.Registry) (fulfilled : string -> bool)
    (priorityThreshold : option Z) (st : CacheWarmer.t) :
  NoDup (map fst reg) ->
  CacheWarmer.isWarming st = false ->
  CacheWarmer.startedNames
    (snd (CacheWarmer.warmCache true reg fulfilled priorityThreshold st))
  ≡ₚ map fst
       (List.filter
          (fun nt =>
             CacheWarmer.priority (snd nt)
             <=? default CacheWarmer.WARMING_PRIORITY.HIGH priorityThreshold)
          reg).
Proof.
  intros Hnd Hidle.
  destruct (warmCache_summary reg fulfilled priorityThreshold st Hnd Hidle)
    as (names & Hperm & Hstarted & _).
  now rewrite Hstarted.
Qed.

Lemma warmCache_starts_every_selected_task_once_witness :
  CacheWarmer.startedNames
    (snd (CacheWarmer.warmCache true CacheWarmer.WARMING_TASKS
            (fun name => negb (String.eqb name "getUserProgress")) None
            CacheWarmer.new))
  ≡ₚ ["getUserProgress"; "getLessons"].
Proof.
  apply (warmCache_starts_every_selected_task_once CacheWarmer.WARMING_TASKS
           (fun name => negb (String.eqb name "getUserProgress")) None
           CacheWarmer.new).
  - apply (bool_decide_unpack _). vm_compute. exact I.
  - reflexivity.
Defined.

(** X18. The summary of a run: [total] is the number of selected tasks,
    every one of them is counted once, as warmed when it fulfilled and
    as failed otherwise, [success] says that none failed, and the
    warmer is idle again. What an earlier run had recorded is gone. *)
Theorem warmCache_summary_counts (reg : CacheWarmer.Registry)
    (fulfilled : string -> bool) (priorityThreshold : option Z)
    (st : CacheWarmer.t) :
  NoDup (map fst reg) ->
  CacheWarmer.isWarming st = false ->
  let selected :=
    map fst
      (List.filter
         (fun nt =>
            CacheWarmer.priority (snd nt)
            <=? default CacheWarmer.WARMING_PRIORITY.HIGH priorityThreshold)
         reg) in
  let run := CacheWarmer.warmCache true reg fulfilled priorityThreshold st in
  let st' := snd (fst run) in
  CacheWarmer.isWarming st' = false /\
  (forall name,
      name ∈ CacheWarmer.warmedTasks st' <->
      name ∈ selected /\ fulfilled name = true) /\
  (forall name,
      name ∈ CacheWarmer.failedTasks st' <->
      name ∈ selected /\ fulfilled name = false) /\
  exists stats,
    fst (fst run) = Some stats /\
    CacheWarmer.total stats = length selected /\
    (CacheWarmer.warmed stats + CacheWarmer.failed stats)%nat
    = CacheWarmer.total stats /\
    CacheWarmer.warmed stats = length (CacheWarmer.warmedTasks st') /\
    CacheWarmer.failedNames stats = CacheWarmer.failedTasks st' /\
    (CacheWarmer.success stats = true <->
     forall name, name ∈ selected -> fulfilled name = true).
Proof.
  intros Hnd Hidle selected run st'. subst st'.
  destruct (warmCache_summary reg fulfilled priorityThreshold st Hnd Hidle)
    as (names & Hperm & _ & Hw & Hf & Hi & _ & Hstats).
  fold selected in Hperm. fold run in Hw, Hf, Hi, Hstats.
  assert (Hmemw : forall name,
    name ∈ CacheWarmer.warmedTasks (snd (fst run)) <->
    name ∈ selected /\ fulfilled name = true).
  { intros name. rewrite Hw, <- Hperm, !list_elem_of_In, filter_In. tauto. }
  assert (Hmemf : forall name,
    name ∈ CacheWarmer.failedTasks (snd (fst run)) <->
    name ∈ selected /\ fulfilled name = false).
  { intros name. rewrite Hf, <- Hperm, !list_elem_of_In, filter_In.
    rewrite negb_true_iff. tauto. }
  split; [exact Hi|]. split; [exact Hmemw|]. split; [exact Hmemf|].
  eexists. split; [exact Hstats|].
  cbn [CacheWarmer.total CacheWarmer.warmed CacheWarmer.failed
       CacheWarmer.success CacheWarmer.failedNames].
  split; [now rewrite Hperm|]. split; [apply filter_lengths|].
  split; [now rewrite Hw|]. split; [now rewrite Hf|].
  rewrite Nat.eqb_eq, length_zero_iff_nil. split.
  - intros Hnil name Hname. destruct (fulfilled name) eqn:Hok; [reflexivity|].
    assert (Hin : name ∈ CacheWarmer.failedTasks (snd (fst run)))
      by (apply Hmemf; auto).
    rewrite Hf, Hnil in Hin. now apply elem_of_nil in Hin.
  - intros Hall.
    destruct (List.filter (fun n => negb (fulfilled n)) names) as [|name l];
      [reflexivity|].
    assert (Hin : name ∈ CacheWarmer.failedTasks (snd (fst run)))
      by (rewrite Hf; apply list_elem_of_here).
    apply Hmemf in Hin as [Hsel Hfalse]. rewrite (Hall name Hsel) in Hfalse.
    discriminate.
Qed.

Lemma warmCache_summary_counts_witness :
  CacheWarmer.isWarming
    (snd (fst (CacheWarmer.warmCache true CacheWarmer.WARMING_TASKS
                 (fun _ => false) (Some 3) CacheWarmer.new)))
  = false.
Proof.
  apply (warmCache_summary_counts CacheWarmer.WARMING_TASKS (fun _ => false)
           (Some 3) CacheWarmer.new).
  - apply (bool_decide_unpack _). vm_compute. exact I.
  - reflexivity.
Defined.

(** X19. Every progress notification of a run reports as many completed
    and failed tasks as its [total]: [total] counts the tasks of the
    tiers that have run so far, not those of the whole run, so the
    progress a listener sees is always complete. *)
Theorem warmCache_progress_is_always_complete (reg : CacheWarmer.Registry)
    (fulfilled : string -> bool) (priorityThreshold : option Z)
    (st : CacheWarmer.t) :
  NoDup (map fst reg) ->
  CacheWarmer.isWarming st = false ->
  forall completed failed total currentPriority,
    CacheWarmer.Progress completed failed total currentPriority
    ∈ snd (CacheWarmer.warmCache true reg fulfilled priorityThreshold st) ->
    (completed + failed)%nat = total.
Proof.
  intros Hnd Hidle completed failed total currentPriority Hin.
  destruct (warmCache_summary reg fulfilled priorityThreshold st Hnd Hidle)
    as (names & _ & _ & _ & _ & _ & Hprog & _).
  rewrite Forall_forall in Hprog. apply (Hprog _ Hin).
Qed.

Lemma warmCache_progress_is_always_complete_witness :
  (1 + 0)%nat = 1%nat.
Proof.
  apply (warmCache_progress_is_always_complete CacheWarmer.WARMING_TASKS
           (fun _ => true) (Some 3) CacheWarmer.new
           ltac:(apply (bool_decide_unpack _); vm_compute; exact I) eq_refl
           1%nat 0%nat 1%nat 1).
  vm_compute. apply list_elem_of_further, list_elem_of_further,
    list_elem_of_here.
Defined.

Section Registering.
Import CacheWarmer.




End Registering.



Lemma warmCache_digit_priorities_ascending_witness :
  StronglySorted Z.lt
    (CacheWarmer.tierOrder
       (snd (CacheWarmer.warmCache true CacheWarmer.WARMING_TASKS
               (fun _ => true) (Some CacheWarmer.WARMING_PRIORITY.LOW)
               CacheWarmer.new))).
Proof.
  apply (warmCache_digit_priorities_ascending CacheWarmer.WARMING_TASKS
           (fun _ => true) (Some CacheWarmer.WARMING_PRIORITY.LOW)
           CacheWarmer.new eq_refl).
  intros nt Hin _. unfold CacheWarmer.WARMING_TASKS in Hin.
  rewrite !elem_of_cons, elem_of_nil in Hin.
  destruct Hin as [->|[->|[->|[]]]]; vm_compute; split; discriminate.
Defined.
